(** * mincore: the function-calling core of a minimal agent

    A shallow embedding of [src/agent/mincore.py]: the schema deriver
    ([_generate_function_schemas]), the function registry
    ([_generate_function_map]), the call extractor
    ([_extract_function_calls]) and [MinCore.send_message] with its
    function-calling loop.

    Python values are a small inductive type; code that raises returns in a
    sum [exn + A]; the provider client and the tools act on an abstract
    world, threaded through a state-and-error monad that also keeps the
    trace of provider submissions and tool invocations.  Logging has no
    effect on any of this and is left out. *)

From Stdlib Require Import ZArith Floats.SpecFloat.
From stdpp Require Import base list strings pretty gmap.

Set Warnings "-register-all".

Open Scope string_scope.
Open Scope list_scope.

(** ** Python values *)

(** The values the code inspects: what a provider item can carry in its
    fields and what a tool can return.  A dict keeps its insertion order;
    an object is its class name and its attributes. *)
Inductive pyval : Type :=
| PNone
| PBool (b : bool)
| PInt (z : Z)
| PFloat (f : spec_float)
| PStr (s : string)
| PList (l : list pyval)
| PDict (d : list (pyval * pyval))
| PObj (cls : string) (attrs : list (string * pyval)).

(** Exceptions: [except Exception] catches the first kind only; the second
    kind stands for [KeyboardInterrupt], [SystemExit] and [GeneratorExit],
    which derive from [BaseException] alone.  [exn_str] is [str(e)]. *)
Inductive exn : Type :=
| PyException (cls msg : string)
| PyBaseException (cls msg : string).

Definition exn_str (e : exn) : string :=
  match e with PyException _ m | PyBaseException _ m => m end.

Definition pyresult (A : Type) : Type := (exn + A)%type.

Definition returns {A : Type} (r : pyresult A) : bool :=
  match r with inr _ => true | inl _ => false end.

(** [bool(v)]. *)
Definition truthy (v : pyval) : bool :=
  match v with
  | PNone => false
  | PBool b => b
  | PInt z => negb (z =? 0)%Z
  | PFloat f => match f with S754_zero _ => false | _ => true end
  | PStr s => match s with "" => false | _ => true end
  | PList l => match l with [] => false | _ => true end
  | PDict d => match d with [] => false | _ => true end
  | PObj _ _ => true
  end.

(** [a or b]. *)
Definition py_or (a b : pyval) : pyval := if truthy a then a else b.

Fixpoint assoc {A : Type} (k : string) (l : list (string * A)) : option A :=
  match l with
  | [] => None
  | (k', v) :: l' => if String.eqb k k' then Some v else assoc k l'
  end.

(** [getattr(o, name, default)]: only objects carry the attributes read
    here ([output], [name], [arguments], [call_id], [id]); none of the
    built-in types has one of them. *)
Definition getattr (o : pyval) (name : string) (default : pyval) : pyval :=
  match o with
  | PObj _ attrs => match assoc name attrs with Some v => v | None => default end
  | _ => default
  end.

Definition is_none (v : pyval) : bool :=
  match v with PNone => true | _ => false end.

(** [isinstance(v, str)] and [isinstance(v, dict)]. *)
Definition is_str (v : pyval) : bool :=
  match v with PStr _ => true | _ => false end.

Definition is_dict (v : pyval) : bool :=
  match v with PDict _ => true | _ => false end.

(** ** Data of the core *)

(** A pending call, the dict [{"id": .., "name": .., "args": ..}]. *)
Record pending_call : Type := PendingCall {
  call_ident : string;
  call_name : string;
  call_args : pyval
}.

(** A call result, the dict [{"call_id": .., "output": ..}]. *)
Record call_result : Type := CallResult {
  res_call_id : string;
  res_output : string
}.

(** A provider response: [response.id], [response.output_text] and what
    [getattr(response, "output", None)] gives ([PNone] when the attribute
    is missing). *)
Record provider_response : Type := Response {
  resp_id : string;
  resp_output_text : string;
  resp_output : pyval
}.

(** ** The call extractor *)

Section Extractor.

(** [json.loads]: [None] when it raises (a [JSONDecodeError], a
    [RecursionError]: all of them are [Exception]s). *)
Variable json_loads : string -> option pyval.

(** [repr] of a value that is not a string. *)
Variable py_repr : pyval -> string.

(** [str(v)]. *)
Definition py_str (v : pyval) : string :=
  match v with PStr s => s | _ => py_repr v end.

(** The body of [for item in output], on the list [calls] built so far. *)
Definition extract_item (calls : list pending_call) (item : pyval)
  : list pending_call :=
  let name := getattr item "name" PNone in
  let arguments := getattr item "arguments" PNone in
  if negb (truthy name) || is_none arguments then calls
  else
    let call_id :=
      py_or (getattr item "call_id" PNone) (getattr item "id" (PStr "")) in
    let args :=
      match arguments with
      | PStr s => match json_loads s with Some v => v | None => PDict [] end
      | PDict d => arguments
      | _ => PDict []
      end in
    calls ++ [ {| call_ident := if is_none call_id then "" else py_str call_id;
                  call_name := py_str name;
                  call_args := args |} ].

Definition _extract_function_calls (response : provider_response) : list pending_call :=
  let calls := [] in
  let output := resp_output response in
  match output with
  | PList items => foldl extract_item calls items
  | _ => calls
  end.

End Extractor.

(** ** Tools, requests and the trace *)

Definition pydict : Type := list (pyval * pyval).

(** A tool: its [__name__] and what calling it with keyword arguments does
    to the world (it returns a value or raises). *)
Record callable (W : Type) : Type := Callable {
  fn_name : string;
  fn_call : list (string * pyval) -> W -> pyresult pyval * W
}.
Arguments Callable {W} _ _.
Arguments fn_name {W} _.
Arguments fn_call {W} _ _ _.

(** An element of the [input] list of a provider request. *)
Inductive input_item : Type :=
| InMessage (role content : string)
| InFunctionCallOutput (call_id output : string).

(** A keyword argument of [responses.create] that a call site may leave out. *)
Inductive param (A : Type) : Type :=
| NotGiven
| Given (a : A).
Arguments NotGiven {A}.
Arguments Given {A} _.

(** The keyword arguments of one [client.responses.create] call. *)
Record request : Type := Request {
  req_model : string;
  req_previous_response_id : param string;
  req_input : list input_item;
  req_tools : param (option (list pydict))
}.

(** What happens outside the core, in order: provider submissions and tool
    invocations, each with its outcome. *)
Inductive event : Type :=
| EvCreate (req : request) (r : pyresult provider_response)
| EvInvoke (name : string) (kwargs : list (string * pyval)) (r : pyresult pyval).

Definition is_create (ev : event) : bool :=
  match ev with EvCreate _ _ => true | EvInvoke _ _ _ => false end.

(** The number of provider submissions in a trace. *)
Definition submissions (evs : list event) : nat :=
  length (filter (fun ev => is_create ev = true) evs).

Record state (W : Type) : Type := State {
  world : W;
  trace : list event
}.
Arguments State {W} _ _.
Arguments world {W} _.
Arguments trace {W} _.

(** [st'] continues the trace of [st] without a provider submission. *)
Definition quiet {W} (st st' : state W) : Prop :=
  exists evs, trace st' = trace st ++ evs /\ submissions evs = 0.

(** Computations that act on the world, extend the trace and may raise. *)
Definition M (W A : Type) : Type := state W -> pyresult A * state W.

Definition ret {W A} (a : A) : M W A := fun st => (inr a, st).

Definition raise {W A} (e : exn) : M W A := fun st => (inl e, st).

Definition bind {W A B} (m : M W A) (k : A -> M W B) : M W B :=
  fun st =>
    match m st with
    | (inr a, st') => k a st'
    | (inl e, st') => (inl e, st')
    end.

Definition lift {W A} (r : pyresult A) : M W A := fun st => (r, st).

(** [try: body  except Exception as e: handler e]. *)
Definition try_except {W A} (body : M W A) (handler : exn -> M W A) : M W A :=
  fun st =>
    match body st with
    | (inl (PyException cls msg), st') => handler (PyException cls msg) st'
    | other => other
    end.

Declare Scope py_scope.
Delimit Scope py_scope with py.
Notation "x <- m ;; k" := (bind m (fun x => k))
  (at level 100, m at next level, right associativity) : py_scope.
Open Scope py_scope.

(** [d[k] = v] on a dict with string keys. *)
Fixpoint dict_set (k : string) (v : pyval) (d : pydict) : pydict :=
  match d with
  | [] => [(PStr k, v)]
  | (PStr k', v') :: d' =>
      if String.eqb k k' then (PStr k', v) :: d'
      else (PStr k', v') :: dict_set k v d'
  | kv :: d' => kv :: dict_set k v d'
  end.

(** The keys of [**args], when all of them are strings. *)
Fixpoint kwargs_of (d : pydict) : option (list (string * pyval)) :=
  match d with
  | [] => Some []
  | (PStr k, v) :: d' =>
      match kwargs_of d' with
      | Some kw => Some ((k, v) :: kw)
      | None => None
      end
  | _ :: _ => None
  end.

(** [**args]: a [TypeError] unless [args] is a dict with string keys. *)
Definition unpack_kwargs (args : pyval) : pyresult (list (string * pyval)) :=
  match args with
  | PDict d =>
      match kwargs_of d with
      | Some kw => inr kw
      | None => inl (PyException "TypeError" "keywords must be strings")
      end
  | _ => inl (PyException "TypeError" "argument after ** must be a mapping")
  end.

(** The dict [{"error": msg}]. *)
Definition error_obj (msg : string) : pyval :=
  PDict [(PStr "error", PStr msg)].

(** The configuration a [MinCore] object holds next to its client. *)
Record MinCore : Type := {
  model : string;
  system_prompt : string
}.

(** ** The core *)

Section Core.

(** The state of everything outside the core: the provider's server and
    whatever the tools touch. *)
Context {W : Type}.

Variable json_loads : string -> option pyval.
Variable py_repr : pyval -> string.

(** [json.dumps(v, default=str)]; it raises on a key it cannot encode or
    on a circular structure. *)
Variable json_dumps : pyval -> pyresult string.

(** [function_schema.get_function_schema]: the schema dict of a function,
    or the exception of the introspection ([inspect.signature] raises a
    [ValueError] or a [TypeError] on a callable it cannot introspect). *)
Variable get_function_schema : callable W -> pyresult pydict.

(** [self.client.responses.create]. *)
Variable responses_create : request -> W -> pyresult provider_response * W.

(** One provider submission. *)
Definition create (req : request) : M W provider_response :=
  fun st =>
    let '(r, w') := responses_create req (world st) in
    (r, State w' (trace st ++ [EvCreate req r])).

(** One tool invocation, [f] called with the keyword arguments [kwargs]. *)
Definition invoke (f : callable W) (kwargs : list (string * pyval))
  : M W pyval :=
  fun st =>
    let '(r, w') := fn_call f kwargs (world st) in
    (r, State w' (trace st ++ [EvInvoke (fn_name f) kwargs r])).

(** The [for function in function_list] loop of the schema deriver, on
    the list [function_schemas] built so far. *)
Fixpoint schemas_loop (function_list : list (callable W))
    (function_schemas : list pydict) : pyresult (list pydict) :=
  match function_list with
  | [] => inr function_schemas
  | function :: rest =>
      match get_function_schema function with
      | inl e => inl e
      | inr schema =>
          schemas_loop rest
            (function_schemas ++ [dict_set "type" (PStr "function") schema])
      end
  end.

(** [schema] is what the loop appends for [function]. *)
Definition derived (function : callable W) (schema : pydict) : Prop :=
  exists d, get_function_schema function = inr d
            /\ schema = dict_set "type" (PStr "function") d.

(** The [lru_cache] in front of it only saves recomputation. *)
Definition _generate_function_schemas (function_list : list (callable W))
  : pyresult (list pydict) :=
  schemas_loop function_list [].

Definition _generate_function_map (function_list : list (callable W))
  : gmap string (callable W) :=
  foldl (fun function_map function =>
           <[fn_name function := function]> function_map)
        ∅ function_list.

(** The [try] block of the loop over the calls. *)
Definition call_function (function_map : option (gmap string (callable W)))
    (name : string) (args : pyval) : M W pyval :=
  match function_map with
  | None =>
      raise (PyException "TypeError"
               "argument of type 'NoneType' is not iterable")
  | Some fmap =>
      match fmap !! name with
      | None => raise (PyException "ValueError" ("Unknown function: " +:+ name))
      | Some function =>
          kwargs <- lift (unpack_kwargs args) ;;
          invoke function kwargs
      end
  end.

(** The body of [for call in function_calls]. *)
Definition execute_call (function_map : option (gmap string (callable W)))
    (call : pending_call) : M W call_result :=
  let name := call_name call in
  let args := call_args call in
  let call_id := call_ident call in
  result <- try_except (call_function function_map name args)
              (fun e => ret (error_obj (exn_str e))) ;;
  output_str <- lift (match result with
                      | PDict _ | PList _ => json_dumps result
                      | _ => inr (py_str py_repr result)
                      end) ;;
  ret {| res_call_id := call_id; res_output := output_str |}.

(** [for call in function_calls], on the list built so far. *)
Fixpoint execute_calls (function_map : option (gmap string (callable W)))
    (function_calls : list pending_call)
    (function_call_results : list call_result) : M W (list call_result) :=
  match function_calls with
  | [] => ret function_call_results
  | call :: rest =>
      r <- execute_call function_map call ;;
      execute_calls function_map rest (function_call_results ++ [r])
  end.

Definition format_results (function_call_results : list call_result)
  : list input_item :=
  map (fun result =>
         InFunctionCallOutput (res_call_id result) (res_output result))
      function_call_results.

(** [for _ in range(max_function_rounds)], by the rounds that are left. *)
Fixpoint function_calling_loop (self : MinCore)
    (function_map : option (gmap string (callable W)))
    (rounds : nat) (response : provider_response) : M W provider_response :=
  match rounds with
  | O => ret response
  | S rounds' =>
      match _extract_function_calls json_loads py_repr response with
      | [] => ret response
      | function_calls =>
          function_call_results <-
            execute_calls function_map function_calls [] ;;
          response' <-
            create {| req_model := model self;
                      req_previous_response_id := Given (resp_id response);
                      req_input := format_results function_call_results;
                      req_tools := NotGiven |} ;;
          function_calling_loop self function_map rounds' response'
      end
  end.

(** The loop and the [return] of [send_message]. *)
Definition dispatch (self : MinCore)
    (function_map : option (gmap string (callable W)))
    (max_function_rounds : Z) (response : provider_response) : M W (string * string) :=
  response <- function_calling_loop self function_map
                (Z.to_nat max_function_rounds) response ;;
  ret (resp_id response, resp_output_text response).

Definition bootstrap_request (self : MinCore) : request :=
  {| req_model := model self;
     req_previous_response_id := NotGiven;
     req_input := [InMessage "system" (system_prompt self)];
     req_tools := NotGiven |}.

Definition _create_conversation (self : MinCore) : M W string :=
  response <- create (bootstrap_request self) ;;
  ret (resp_id response).

(** [function_schemas] and [function_map]: both [None] without functions. *)
Definition prepare_functions (functions : list (callable W))
  : pyresult (option (list pydict) * option (gmap string (callable W))) :=
  match functions with
  | [] => inr (None, None)
  | _ =>
      match _generate_function_schemas functions with
      | inl e => inl e
      | inr function_schemas =>
          inr (Some function_schemas, Some (_generate_function_map functions))
      end
  end.

Definition user_request (self : MinCore) (user_message : string)
    (previous_response_id : string)
    (function_schemas : option (list pydict)) : request :=
  {| req_model := model self;
     req_previous_response_id := Given previous_response_id;
     req_input := [InMessage "user" user_message];
     req_tools := Given function_schemas |}.

Definition send_message (self : MinCore) (user_message : string)
    (previous_response_id : option string) (functions : list (callable W))
    (max_function_rounds : Z) : M W (string * string) :=
  previous_response_id <-
    match previous_response_id with
    | None => _create_conversation self
    | Some previous => ret previous
    end ;;
  prepared <- lift (prepare_functions functions) ;;
  response <-
    create (user_request self user_message previous_response_id
              (fst prepared)) ;;
  dispatch self (snd prepared) max_function_rounds response.

End Core.

(** ** What the specification says of the extractor *)

Section ExtractorSpec.

Variable json_loads : string -> option pyval.
Variable py_repr : pyval -> string.

(** An item field that is there: an attribute whose value is not [None]
    ([getattr] with the default [None] cannot tell the two apart). *)
Definition field (item : pyval) (name : string) : option pyval :=
  match item with
  | PObj _ attrs =>
      match assoc name attrs with
      | Some PNone | None => None
      | Some v => Some v
      end
  | _ => None
  end.

(** "An item qualifies as a call if it exposes a non-empty name and a
    non-null arguments value": emptiness of a value is Python's, the
    value is falsy; a string name is empty when it is [""]. *)
Definition qualifies (item : pyval) : bool :=
  match field item "name", field item "arguments" with
  | Some name, Some _ => truthy name
  | _, _ => false
  end.

(** "A JSON-encoded string (parsed; a parse failure yields an empty
    argument mapping) or an already-structured mapping (used as-is)";
    the code's third branch gives the empty mapping. *)
Definition spec_args (arguments : pyval) : pyval :=
  match arguments with
  | PStr s => default (PDict []) (json_loads s)
  | PDict d => PDict d
  | _ => PDict []
  end.

(** "The call identifier is the item's call-identifier field, falling
    back to the item's generic identifier field, falling back to empty
    string". *)
Definition spec_identifier (item : pyval) : string :=
  match field item "call_id" with
  | Some call_id => py_str py_repr call_id
  | None =>
      match field item "id" with
      | Some id => py_str py_repr id
      | None => ""
      end
  end.

(** The same with the code's test: the call-identifier field is used
    when it is there and not empty (truthy). *)
Definition amended_identifier (item : pyval) : string :=
  match field item "call_id" with
  | Some call_id =>
      if truthy call_id then py_str py_repr call_id
      else match field item "id" with
           | Some id => py_str py_repr id
           | None => ""
           end
  | None =>
      match field item "id" with
      | Some id => py_str py_repr id
      | None => ""
      end
  end.

(** The pending call of a qualifying item. *)
Definition pending_of (item : pyval) : pending_call :=
  {| call_ident := amended_identifier item;
     call_name := py_str py_repr (getattr item "name" PNone);
     call_args := spec_args (getattr item "arguments" PNone) |}.

End ExtractorSpec.

(** ** A reference JSON codec for error objects

    The fragment of [json.dumps] and [json.loads] that the error results
    of the loop go through: an object with one string key and one string
    value, with the quote and the backslash escaped. *)
Module MiniJson.

Definition dq : Ascii.ascii := Eval cbv in Ascii.ascii_of_nat 34.
Definition bs : Ascii.ascii := Eval cbv in Ascii.ascii_of_nat 92.

Fixpoint escape (s : string) : string :=
  match s with
  | EmptyString => EmptyString
  | String c s' =>
      if (Ascii.eqb c dq || Ascii.eqb c bs)%bool
      then String bs (String c (escape s'))
      else String c (escape s')
  end.

Definition quote (s : string) : string :=
  String dq (escape s +:+ String dq EmptyString).

(** The characters up to the closing quote, and what follows it. *)
Fixpoint unquote (s : string) : option (string * string) :=
  match s with
  | EmptyString => None
  | String c s' =>
      if Ascii.eqb c dq then Some (EmptyString, s')
      else if Ascii.eqb c bs then
        match s' with
        | EmptyString => None
        | String c' s'' =>
            match unquote s'' with
            | Some (t, rest) => Some (String c' t, rest)
            | None => None
            end
        end
      else
        match unquote s' with
        | Some (t, rest) => Some (String c t, rest)
        | None => None
        end
  end.

(** [s] without its prefix [p]. *)
Fixpoint strip (p s : string) : option string :=
  match p, s with
  | EmptyString, _ => Some s
  | String a p', String b s' => if Ascii.eqb a b then strip p' s' else None
  | String _ _, EmptyString => None
  end.

Definition open_object : string := "{" +:+ String dq EmptyString.
Definition colon : string := ": " +:+ String dq EmptyString.

Definition dumps (v : pyval) : pyresult string :=
  match v with
  | PDict [(PStr k, PStr s)] =>
      inr (open_object +:+
           (escape k +:+ String dq
              (colon +:+ (escape s +:+ String dq "}"))))
  | PDict [] => inr "{}"
  | PList [] => inr "[]"
  | _ => inl (PyException "TypeError" "Object is not JSON serializable")
  end.

Definition loads_object (s : string) : option pyval :=
  s1 ← strip open_object s;
  '(k, s2) ← unquote s1;
  s3 ← strip colon s2;
  '(v, s4) ← unquote s3;
  if String.eqb s4 "}" then Some (PDict [(PStr k, PStr v)]) else None.

Definition loads (s : string) : option pyval :=
  if String.eqb s "{}" then Some (PDict []) else loads_object s.

End MiniJson.

(** ** Sample tools, items and providers *)

Module Samples.

(** [repr] of the values that are not strings. *)
Definition repr (v : pyval) : string :=
  match v with
  | PNone => "None"
  | PBool true => "True"
  | PBool false => "False"
  | PInt z => pretty z
  | _ => "<object>"
  end.

(** The two tools of [agent-baz.py], with the random choice made by the
    world: its parity picks the colour, its value the number. *)
Definition get_color : callable nat :=
  Callable "get_color"
    (fun _ w => (inr (PStr (if Nat.even w then "red" else "green")), w)).

Definition get_number : callable nat :=
  Callable "get_number" (fun _ w => (inr (PInt (Z.of_nat w)), w)).

(** A tool that raises. *)
Definition failing : callable nat :=
  Callable "failing"
    (fun _ w => (inl (PyException "RuntimeError" "boom"), S w)).

(** A tool that ends the process, as [sys.exit(0)] does. *)
Definition quit : callable nat :=
  Callable "quit" (fun _ w => (inl (PyBaseException "SystemExit" "0"), w)).

(** A callable without a Python signature, such as the built-in [max]. *)
Definition builtin_max : callable nat :=
  Callable "max" (fun _ w => (inl (PyException "TypeError" "max expected at least 1 argument, got 0"), w)).

Definition schemas (f : callable nat) : pyresult pydict :=
  if String.eqb (fn_name f) "max"
  then inl (PyException "ValueError" "no signature found for builtin <built-in function max>")
  else inr [(PStr "name", PStr (fn_name f));
            (PStr "description", PStr "");
            (PStr "parameters",
             PDict [(PStr "type", PStr "object");
                    (PStr "properties", PDict []);
                    (PStr "required", PList [])])].

Definition reasoning_item : pyval :=
  PObj "ResponseReasoningItem"
    [("id", PStr "rs_1"); ("summary", PList []); ("type", PStr "reasoning")].

(** An item whose call identifier is the empty string. *)
Definition unnamed_call : pyval :=
  PObj "ResponseFunctionToolCall"
    [("arguments", PStr "{}"); ("call_id", PStr ""); ("name", PStr "get_color");
     ("type", PStr "function_call"); ("id", PStr "fc_1")].

(** An item whose arguments are a number. *)
Definition numeric_call : pyval :=
  PObj "ResponseFunctionToolCall"
    [("arguments", PInt 7); ("call_id", PStr "call_7"); ("name", PStr "get_number");
     ("type", PStr "function_call"); ("id", PStr "fc_7")].

(** An item whose arguments are [None]. *)
Definition null_call : pyval :=
  PObj "ResponseFunctionToolCall"
    [("arguments", PNone); ("call_id", PStr "call_8"); ("name", PStr "get_number");
     ("type", PStr "function_call"); ("id", PStr "fc_8")].

Definition tool_call (name arguments call_id id : pyval) : pyval :=
  PObj "ResponseFunctionToolCall"
    [("arguments", arguments); ("call_id", call_id); ("name", name);
     ("type", PStr "function_call"); ("id", id)].

Definition color_call : pyval :=
  tool_call (PStr "get_color") (PStr "{}") (PStr "call_1") (PStr "fc_1").

(** A provider that asks for a new call in every response; its state
    counts the submissions it has served. *)
Definition insistent (req : request) (w : nat)
  : pyresult provider_response * nat :=
  (inr (Response ("resp_" +:+ pretty w) "" (PList [reasoning_item; color_call])),
   S w).

(** A provider that answers in text. *)
Definition talkative (req : request) (w : nat)
  : pyresult provider_response * nat :=
  (inr (Response ("resp_" +:+ pretty w) "hello" (PList [reasoning_item])), S w).

(** A response that asks for a call, and one that does not. *)
Definition asking : provider_response :=
  Response "resp_init" "" (PList [reasoning_item; color_call]).

Definition final : provider_response :=
  Response "resp_final" "hello" (PList [reasoning_item]).

Definition registry : gmap string (callable nat) :=
  _generate_function_map [get_color; get_number; failing; quit].

Definition weather_call : pending_call :=
  {| call_ident := "call_9"; call_name := "get_weather"; call_args := PDict [] |}.

Definition failing_call : pending_call :=
  {| call_ident := "call_3"; call_name := "failing"; call_args := PDict [] |}.

Definition quit_call : pending_call :=
  {| call_ident := "call_4"; call_name := "quit"; call_args := PDict [] |}.

Definition number_call : pending_call :=
  {| call_ident := "call_2"; call_name := "get_number"; call_args := PDict [] |}.

Definition initial : state nat := State 0 [].

Definition baz : MinCore :=
  {| model := "gpt-5-nano"; system_prompt := "You are a helpful assistant named Baz." |}.

End Samples.

(** ** Reading dicts and traces *)

(** [d[k]] for a string key [k]: the value of the entry with that key. *)
Fixpoint dict_get (k : string) (d : pydict) : option pyval :=
  match d with
  | [] => None
  | (PStr k', v) :: d' => if String.eqb k k' then Some v else dict_get k d'
  | _ :: d' => dict_get k d'
  end.

(** [isinstance(v, list)]. *)
Definition is_list (v : pyval) : bool :=
  match v with PList _ => true | _ => false end.

Definition is_invoke (ev : event) : bool :=
  match ev with EvInvoke _ _ _ => true | EvCreate _ _ => false end.

(** The last response that the provider returned in a trace. *)
Fixpoint last_created (evs : list event) : option provider_response :=
  match evs with
  | [] => None
  | EvCreate _ (inr response) :: evs' =>
      Some (default response (last_created evs'))
  | _ :: evs' => last_created evs'
  end.

(** No submission of the trace failed. *)
Definition all_created (evs : list event) : Prop :=
  Forall (fun ev => match ev with EvCreate _ (inl _) => False | _ => True end) evs.

(** The submissions of [evs] form one conversation that continues
    [previous]: each of them names the id of the response before it, and a
    submission that fails is the end of the trace. *)
Fixpoint chained (previous : string) (evs : list event) : Prop :=
  match evs with
  | [] => True
  | EvInvoke _ _ _ :: evs' => chained previous evs'
  | EvCreate req r :: evs' =>
      req_previous_response_id req = Given previous
      /\ match r with
         | inr response => chained (resp_id response) evs'
         | inl _ => evs' = []
         end
  end.

(** The trace of a loop that is at [response]: every submission goes to
    the model of [self] without tools, continues the response before it
    and carries one output for each call of that response, in their
    order; a submission that fails is the end of the trace. *)
Fixpoint follows_up (calls_of : provider_response -> list pending_call)
    (self : MinCore) (response : provider_response) (evs : list event) : Prop :=
  match evs with
  | [] => True
  | EvInvoke _ _ _ :: evs' => follows_up calls_of self response evs'
  | EvCreate req r :: evs' =>
      req_model req = model self
      /\ req_previous_response_id req = Given (resp_id response)
      /\ req_tools req = NotGiven
      /\ (exists results,
            req_input req = format_results results
            /\ map res_call_id results = map call_ident (calls_of response))
      /\ match r with
         | inr response' => follows_up calls_of self response' evs'
         | inl _ => evs' = []
         end
  end.

(** ** The example agent, [agent-baz.py] *)

Definition newline_char : Ascii.ascii := Eval cbv in Ascii.ascii_of_nat 10.

Definition newline : string := String newline_char EmptyString.

Definition DEFAULT_SYSTEM_PROMPT : string :=
  newline +:+ "You are a helpful assistant." +:+ newline.

(** [MinCore(api_key, model, system_prompt)], a keyword argument that is
    left out being [None]; the key goes to the client, which is a
    parameter here. *)
Definition MinCore_init (api_key : string) (model system_prompt : option string)
  : MinCore :=
  {| model := default "gpt-5-nano" model;
     system_prompt := default DEFAULT_SYSTEM_PROMPT system_prompt |}.

Definition SYSTEM_PROMPT : string :=
  newline +:+ "You are a helpful assistant named Baz." +:+ newline
  +:+ "You have two tools to return a random color or return a random number."
  +:+ newline
  +:+ "You can only discuss the color and number tools, or make polite conversation."
  +:+ newline.

Definition colors : list string :=
  ["red"; "green"; "blue"; "yellow"; "purple"; "orange"; "brown"; "black";
   "white"].

Section Baz.

Context {W : Type}.

Variable json_loads : string -> option pyval.
Variable py_repr : pyval -> string.
Variable json_dumps : pyval -> pyresult string.
Variable get_function_schema : callable W -> pyresult pydict.
Variable responses_create : request -> W -> pyresult provider_response * W.

(** The random source: [random.choice] and [random.randint] draw a number
    below [n] from it. *)
Variable randbelow : nat -> W -> nat * W.

(** The console and the environment: [input], [print], [load_dotenv] and
    [os.getenv]. *)
Variable console_input : string -> W -> pyresult string * W.
Variable console_print : string -> W -> W.
Variable load_dotenv : string -> W -> W.
Variable getenv : string -> W -> option string.

(** A call of a function without parameters: a keyword argument is a
    [TypeError]. *)
Definition without_parameters (name : string) (kwargs : list (string * pyval))
    (body : W -> pyresult pyval * W) : W -> pyresult pyval * W :=
  match kwargs with
  | [] => body
  | (k, _) :: _ =>
      fun w =>
        (inl (PyException "TypeError"
                (name +:+ "() got an unexpected keyword argument '" +:+ k +:+ "'")),
         w)
  end.

(** [random.choice(seq)]. *)
Definition random_choice (seq : list string) (w : W) : pyresult pyval * W :=
  match seq with
  | [] => (inl (PyException "IndexError" "Cannot choose from an empty sequence"), w)
  | _ =>
      let '(i, w') := randbelow (length seq) w in
      match seq !! i with
      | Some x => (inr (PStr x), w')
      | None => (inl (PyException "IndexError" "list index out of range"), w')
      end
  end.

(** [random.randint(a, b)]. *)
Definition random_randint (a b : Z) (w : W) : pyresult pyval * W :=
  if (b <? a)%Z
  then (inl (PyException "ValueError" "empty range in randrange"), w)
  else
    let '(i, w') := randbelow (Z.to_nat (b + 1 - a)) w in
    (inr (PInt (a + Z.of_nat i)), w').

Definition get_color : callable W :=
  Callable "get_color"
    (fun kwargs => without_parameters "get_color" kwargs (random_choice colors)).

Definition get_number : callable W :=
  Callable "get_number"
    (fun kwargs => without_parameters "get_number" kwargs (random_randint 0 100)).

Definition py_input (prompt : string) : M W string :=
  fun st =>
    let '(r, w') := console_input prompt (world st) in
    (r, State w' (trace st)).

Definition py_print (line : string) : M W unit :=
  fun st => (inr tt, State (console_print line (world st)) (trace st)).

(** The first [turns] rounds of the [while True] loop of [agent_loop]. *)
Fixpoint interaction (llm : MinCore) (funcs : list (callable W)) (turns : nat)
    (response_id : option string) : M W (option string) :=
  match turns with
  | O => ret response_id
  | S turns' =>
      user_input <- py_input (newline +:+ ">>> You: ") ;;
      _ <- py_print "" ;;
      reply <- send_message json_loads py_repr json_dumps get_function_schema
                 responses_create llm user_input response_id funcs 5 ;;
      _ <- py_print (newline +:+ ">>> Agent:  " +:+ snd reply) ;;
      interaction llm funcs turns' (Some (fst reply))
  end.

(** [agent_loop], as far as its first [turns] rounds. *)
Definition agent_loop (turns : nat) : M W (option string) :=
  fun st =>
    let st0 := State (load_dotenv ".env" (world st)) (trace st) in
    match getenv "BAZ_OPENAI_API_KEY" (world st0) with
    | None | Some "" =>
        (inl (PyException "ValueError"
                "BAZ_OPENAI_API_KEY not found in environment variables"), st0)
    | Some api_key =>
        let llm := MinCore_init api_key None (Some SYSTEM_PROMPT) in
        let funcs := [get_color; get_number] in
        interaction llm funcs turns None st0
    end.

End Baz.

(** ** A sample console, environment and random source *)

Module BazSamples.

Definition randbelow (n : nat) (w : nat) : nat * nat := (w mod n, S w).

Definition console_input (prompt : string) (w : nat) : pyresult string * nat :=
  (inr "pick a colour", w).

Definition console_print (line : string) (w : nat) : nat := w.

Definition load_dotenv (path : string) (w : nat) : nat := w.

Definition getenv (name : string) (w : nat) : option string :=
  if String.eqb name "BAZ_OPENAI_API_KEY" then Some "sk-sample" else None.

(** An item whose arguments are not JSON. *)
Definition garbled_call : pyval :=
  PObj "ResponseFunctionToolCall"
    [("arguments", PStr "{oops"); ("call_id", PStr "call_6");
     ("name", PStr "get_number"); ("type", PStr "function_call");
     ("id", PStr "fc_6")].

End BazSamples.

(** * Properties *)

(** ** The reference codec *)

Lemma append_cons (c : Ascii.ascii) (s t : string) :
  String c s +:+ t = String c (s +:+ t).
Proof. reflexivity. Qed.

Lemma strip_append (p s : string) : MiniJson.strip p (p +:+ s) = Some s.
Proof.
  induction p as [|c p IH]; [by destruct s|].
  rewrite append_cons. cbn [MiniJson.strip]. by rewrite Ascii.eqb_refl.
Qed.

Lemma unquote_escape (s rest : string) :
  MiniJson.unquote (MiniJson.escape s +:+ String MiniJson.dq rest)
  = Some (s, rest).
Proof.
  induction s as [|c s IH]; [reflexivity|].
  cbn [MiniJson.escape].
  destruct (Ascii.eqb c MiniJson.dq) eqn:Hdq.
  - apply Ascii.eqb_eq in Hdq. subst c.
    cbn [orb]. rewrite !append_cons. cbn [MiniJson.unquote].
    change (Ascii.eqb MiniJson.bs MiniJson.dq) with false.
    change (Ascii.eqb MiniJson.bs MiniJson.bs) with true. cbv iota.
    by rewrite IH.
  - destruct (Ascii.eqb c MiniJson.bs) eqn:Hbs.
    + apply Ascii.eqb_eq in Hbs. subst c.
      cbn [orb]. rewrite !append_cons. cbn [MiniJson.unquote].
      change (Ascii.eqb MiniJson.bs MiniJson.dq) with false.
      change (Ascii.eqb MiniJson.bs MiniJson.bs) with true. cbv iota.
      by rewrite IH.
    + cbn [orb]. rewrite append_cons. cbn [MiniJson.unquote].
      by rewrite Hdq, Hbs, IH.
Qed.

(** The reference codec reads back the error objects it writes. *)
Lemma mini_json_error_roundtrip (msg : string) :
  exists out, MiniJson.dumps (error_obj msg) = inr out
              /\ MiniJson.loads out = Some (error_obj msg).
Proof.
  eexists. split; [reflexivity|].
  unfold MiniJson.loads.
  change (String.eqb (MiniJson.open_object +:+ _) "{}") with false. cbv iota.
  unfold MiniJson.loads_object.
  rewrite strip_append. cbn [mbind option_bind].
  rewrite unquote_escape. cbn [mbind option_bind].
  rewrite strip_append. cbn [mbind option_bind].
  rewrite unquote_escape. reflexivity.
Qed.

(** ** The call extractor *)

Section ExtractorTheory.

Variable json_loads : string -> option pyval.
Variable py_repr : pyval -> string.

Local Abbreviation extract_item := (extract_item json_loads py_repr).
Local Abbreviation extract := (_extract_function_calls json_loads py_repr).
Local Abbreviation pending_of := (pending_of json_loads py_repr).

Lemma getattr_field (item : pyval) (name : string) :
  getattr item name PNone = default PNone (field item name).
Proof.
  destruct item; try reflexivity.
  cbn. destruct (assoc name attrs) as [[]|]; reflexivity.
Qed.

(** The guard of the loop body is the qualification test. *)
Lemma guard_qualifies (item : pyval) :
  negb (truthy (getattr item "name" PNone))
  || is_none (getattr item "arguments" PNone) = negb (qualifies item).
Proof.
  unfold qualifies. rewrite !getattr_field.
  destruct item; try reflexivity. cbn.
  destruct (assoc "name" attrs) as [[]|], (assoc "arguments" attrs) as [[]|];
    cbn; by rewrite ?orb_true_r, ?orb_false_r.
Qed.

Ltac id_fallback attrs :=
  cbn; try reflexivity; destruct (assoc "id" attrs) as [[]|]; reflexivity.

(** The identifier the loop body computes. *)
Lemma identifier_amended (item : pyval) :
  (let call_id :=
     py_or (getattr item "call_id" PNone) (getattr item "id" (PStr "")) in
   if is_none call_id then "" else py_str py_repr call_id)
  = amended_identifier py_repr item.
Proof.
  unfold amended_identifier, py_or, field.
  destruct item; try reflexivity. cbn.
  destruct (assoc "call_id" attrs) as [c|]; [|id_fallback attrs].
  destruct c; try id_fallback attrs.
  - destruct b; id_fallback attrs.
  - cbn. destruct (z =? 0)%Z; id_fallback attrs.
  - destruct f; id_fallback attrs.
  - destruct s; id_fallback attrs.
  - destruct l; id_fallback attrs.
  - destruct d; id_fallback attrs.
Qed.

Lemma extract_item_step (calls : list pending_call) (item : pyval) :
  extract_item calls item
  = calls ++ (if qualifies item then [pending_of item] else []).
Proof.
  unfold extract_item. rewrite guard_qualifies.
  destruct (qualifies item); cbn [negb]; [|by rewrite app_nil_r].
  rewrite identifier_amended.
  unfold pending_of, spec_args.
  destruct (getattr item "arguments" PNone); reflexivity.
Qed.

Lemma extract_items_filter (items : list pyval) (calls : list pending_call) :
  foldl extract_item calls items
  = calls ++ map pending_of (filter (fun item => qualifies item = true) items).
Proof.
  revert calls. induction items as [|item items IH]; intros calls; cbn [foldl].
  - by rewrite filter_nil, app_nil_r.
  - rewrite IH, extract_item_step, filter_cons.
    destruct (qualifies item) eqn:Hq.
    + rewrite decide_True by done. cbn. by rewrite <- app_assoc.
    + rewrite decide_False by (by intros ?). by rewrite app_nil_r.
Qed.

Lemma extract_items_app (pre post : list pyval) :
  foldl extract_item [] (pre ++ post)
  = foldl extract_item [] pre ++ foldl extract_item [] post.
Proof.
  rewrite !extract_items_filter. cbn. by rewrite filter_app, map_app.
Qed.

(** C5: the extractor is total, and what it returns is, in the order of
    the output list, the pending call of every item that exposes a
    non-empty name and a non-null arguments value, and nothing for the
    other items (nor for a response whose output is not a list); the
    arguments of a pending call are the parsed JSON of a string, the
    empty mapping when the parse fails, and a mapping as it is. *)
Theorem extract_function_calls_spec (response : provider_response) :
  extract response
  = match resp_output response with
    | PList items =>
        map pending_of (filter (fun item => qualifies item = true) items)
    | _ => []
    end.
Proof.
  unfold _extract_function_calls.
  destruct (resp_output response); try reflexivity.
  apply (extract_items_filter l []).
Qed.

(** C6, amended: the pending call of a qualifying item carries the
    item's call-identifier field when that field is there and not empty;
    otherwise the item's generic identifier field; and the empty string
    when that one is absent too. *)
Theorem call_identifier_fallback (calls : list pending_call) (item : pyval) :
  qualifies item = true ->
  exists call,
    extract_item calls item = calls ++ [call]
    /\ call_ident call = amended_identifier py_repr item.
Proof.
  intros Hq. exists (pending_of item).
  by rewrite extract_item_step, Hq.
Qed.

(** C10, amended: an item with a non-empty name whose arguments value is
    not [None] and neither a string nor a mapping yields a pending call,
    at its place in the list, with an empty argument mapping. *)
Theorem other_arguments_empty_args
    (response : provider_response) (pre post : list pyval) (item : pyval) :
  let name := getattr item "name" PNone in
  let arguments := getattr item "arguments" PNone in
  resp_output response = PList (pre ++ item :: post) ->
  truthy name = true ->
  is_none arguments = false ->
  is_str arguments = false ->
  is_dict arguments = false ->
  extract response
  = foldl extract_item [] pre
    ++ {| call_ident := amended_identifier py_repr item;
          call_name := py_str py_repr name;
          call_args := PDict [] |}
       :: foldl extract_item [] post.
Proof.
  intros name arguments Hout Hname Hnone Hstr Hdict.
  unfold _extract_function_calls. rewrite Hout.
  change (item :: post) with ([item] ++ post).
  rewrite !extract_items_app. f_equal.
  cbn [foldl app]. unfold extract_item.
  fold name arguments. rewrite Hname, Hnone. cbn [negb orb app].
  rewrite identifier_amended.
  destruct arguments; try discriminate; reflexivity.
Qed.

End ExtractorTheory.

(** C6 as stated fails on an item whose call-identifier field is the empty
    string: the field is there, and the pending call still carries the
    generic identifier. *)
Lemma call_identifier_empty_string :
  qualifies Samples.unnamed_call = true
  /\ field Samples.unnamed_call "call_id" = Some (PStr "")
  /\ spec_identifier Samples.repr Samples.unnamed_call = ""
  /\ map call_ident
       (_extract_function_calls MiniJson.loads Samples.repr
          (Response "resp_1" "" (PList [Samples.unnamed_call])))
     = ["fc_1"]
  /\ map call_ident
       (_extract_function_calls MiniJson.loads Samples.repr
          (Response "resp_1" "" (PList [Samples.unnamed_call])))
     <> [spec_identifier Samples.repr Samples.unnamed_call].
Proof. repeat split; try reflexivity. discriminate. Qed.

(** C10 as stated fails on an item whose arguments value is [None], which
    is neither a string nor a mapping: the guard of the loop skips it. *)
Lemma null_arguments_skipped :
  getattr Samples.null_call "arguments" (PInt 1) = PNone
  /\ truthy (getattr Samples.null_call "name" PNone) = true
  /\ is_str (getattr Samples.null_call "arguments" PNone) = false
  /\ is_dict (getattr Samples.null_call "arguments" PNone) = false
  /\ _extract_function_calls MiniJson.loads Samples.repr
       (Response "resp_1" "" (PList [Samples.null_call]))
     = [].
Proof. repeat split. Qed.

Lemma call_identifier_fallback_witness :
  exists call,
    extract_item MiniJson.loads Samples.repr [] Samples.unnamed_call = [] ++ [call]
    /\ call_ident call = amended_identifier Samples.repr Samples.unnamed_call.
Proof.
  apply (call_identifier_fallback MiniJson.loads Samples.repr []
           Samples.unnamed_call).
  reflexivity.
Defined.

Lemma other_arguments_empty_args_witness :
  _extract_function_calls MiniJson.loads Samples.repr
    (Response "resp_1" "" (PList ([Samples.reasoning_item] ++ Samples.numeric_call :: [Samples.color_call])))
  = foldl (extract_item MiniJson.loads Samples.repr) [] [Samples.reasoning_item]
    ++ {| call_ident := amended_identifier Samples.repr Samples.numeric_call;
          call_name := py_str Samples.repr (getattr Samples.numeric_call "name" PNone);
          call_args := PDict [] |}
       :: foldl (extract_item MiniJson.loads Samples.repr) [] [Samples.color_call].
Proof.
  apply (other_arguments_empty_args MiniJson.loads Samples.repr
           (Response "resp_1" "" (PList ([Samples.reasoning_item] ++ Samples.numeric_call :: [Samples.color_call])))
           [Samples.reasoning_item] [Samples.color_call] Samples.numeric_call);
    reflexivity.
Defined.

(** ** Traces *)

Lemma submissions_app (evs evs' : list event) :
  submissions (evs ++ evs') = submissions evs + submissions evs'.
Proof. unfold submissions. by rewrite filter_app, length_app. Qed.

Lemma submissions_create (req : request) (r : pyresult provider_response) :
  submissions [EvCreate req r] = 1.
Proof. reflexivity. Qed.

(** ** The core *)

Section CoreTheory.

Context {W : Type}.
Variable json_loads : string -> option pyval.
Variable py_repr : pyval -> string.
Variable json_dumps : pyval -> pyresult string.
Variable get_function_schema : callable W -> pyresult pydict.
Variable responses_create : request -> W -> pyresult provider_response * W.

Local Abbreviation extract := (_extract_function_calls json_loads py_repr).
Local Abbreviation execute_call := (execute_call py_repr json_dumps).
Local Abbreviation execute_calls := (execute_calls py_repr json_dumps).
Local Abbreviation create := (create responses_create).
Local Abbreviation function_calling_loop :=
  (function_calling_loop json_loads py_repr json_dumps responses_create).
Local Abbreviation dispatch :=
  (dispatch json_loads py_repr json_dumps responses_create).
Local Abbreviation prepare_functions := (prepare_functions get_function_schema).
Local Abbreviation send_message :=
  (send_message json_loads py_repr json_dumps get_function_schema
     responses_create).

Implicit Types (st : state W) (function_map : option (gmap string (callable W))).

(** *** The results of a round *)

Lemma execute_calls_acc function_map (calls : list pending_call)
    (acc : list call_result) st :
  execute_calls function_map calls acc st
  = match execute_calls function_map calls [] st with
    | (inr results, st') => (inr (acc ++ results), st')
    | (inl e, st') => (inl e, st')
    end.
Proof.
  revert acc st. induction calls as [|call calls IH]; intros acc st.
  - cbn. unfold ret. by rewrite app_nil_r.
  - cbn [execute_calls]. unfold bind.
    destruct (execute_call function_map call st) as [[e|r] st1]; [done|].
    rewrite (IH (acc ++ [r])), (IH ([] ++ [r])).
    destruct (execute_calls function_map calls [] st1) as [[e|rs] st2]; [done|].
    by rewrite <- app_assoc.
Qed.

Lemma execute_calls_app function_map (pre post : list pending_call) st :
  execute_calls function_map (pre ++ post) [] st
  = (before <- execute_calls function_map pre [] ;;
     after <- execute_calls function_map post [] ;;
     ret (before ++ after)) st.
Proof.
  revert st. induction pre as [|call pre IH]; intros st.
  - cbn. unfold bind, ret.
    by destruct (execute_calls function_map post [] st) as [[e|rs] st'].
  - cbn [app execute_calls]. unfold bind.
    destruct (execute_call function_map call st) as [[e|r] st1]; [done|].
    rewrite (execute_calls_acc _ (pre ++ post)), (execute_calls_acc _ pre).
    rewrite IH. unfold bind, ret.
    destruct (execute_calls function_map pre [] st1) as [[e|rs] st2]; [done|].
    destruct (execute_calls function_map post [] st2) as [[e|rs'] st3]; [done|].
    by rewrite <- app_assoc.
Qed.

(** *** What a computation adds to the trace *)

Lemma quiet_refl st : quiet st st.
Proof. exists []. by rewrite app_nil_r. Qed.

Lemma quiet_trans st1 st2 st3 : quiet st1 st2 -> quiet st2 st3 -> quiet st1 st3.
Proof.
  intros (evs & H1 & Hn) (evs' & H2 & Hn'). exists (evs ++ evs').
  rewrite H2, H1, <- app_assoc, submissions_app. split; [done|lia].
Qed.

Lemma execute_call_quiet function_map (call : pending_call) st res st' :
  execute_call function_map call st = (res, st') -> quiet st st'.
Proof.
  unfold execute_call, bind, try_except, call_function, lift, ret,
    raise, invoke.
  destruct function_map as [fmap|]; cbn.
  - destruct (fmap !! call_name call) as [function|]; cbn.
    + destruct (unpack_kwargs (call_args call)) as [[cls msg|cls msg]|kwargs]; cbn.
      * destruct (json_dumps _); intros [= <- <-]; apply quiet_refl.
      * intros [= <- <-]; apply quiet_refl.
      * destruct (fn_call function kwargs (world st)) as [r w'] eqn:Hcall.
        assert (Hq : quiet st
                       (State w' (trace st ++ [EvInvoke (fn_name function) kwargs r])))
          by (by eexists [_]).
        destruct r as [[cls msg|cls msg]|v]; cbn.
        -- destruct (json_dumps _); intros [= <- <-]; exact Hq.
        -- intros [= <- <-]; exact Hq.
        -- destruct (match v with PDict _ | PList _ => _ | _ => _ end);
             intros [= <- <-]; exact Hq.
    + destruct (json_dumps _); intros [= <- <-]; apply quiet_refl.
  - destruct (json_dumps _); intros [= <- <-]; apply quiet_refl.
Qed.

Lemma execute_calls_quiet function_map (calls : list pending_call)
    (acc : list call_result) st res st' :
  execute_calls function_map calls acc st = (res, st') -> quiet st st'.
Proof.
  revert acc st. induction calls as [|call calls IH]; intros acc st.
  - intros [= <- <-]. apply quiet_refl.
  - cbn [execute_calls]. unfold bind.
    destruct (execute_call function_map call st) as [[e|r] st1] eqn:Hcall.
    + intros [= <- <-]. eapply execute_call_quiet, Hcall.
    + intros Hrest. eapply quiet_trans.
      * eapply execute_call_quiet, Hcall.
      * eapply IH, Hrest.
Qed.

(** *** The function-calling loop *)

(** What the loop adds to the trace: at most one submission per round,
    and when every round was used and the loop returns, the returned
    response is the outcome of the last event. *)
Lemma function_calling_loop_trace (self : MinCore) function_map
    (rounds : nat) (response : provider_response) st res st' :
  function_calling_loop self function_map rounds response st = (res, st') ->
  exists evs,
    trace st' = trace st ++ evs
    /\ submissions evs <= rounds
    /\ forall last, res = inr last -> submissions evs = rounds ->
         (evs = [] /\ last = response)
         \/ (exists evs0 req, evs = evs0 ++ [EvCreate req (inr last)]).
Proof.
  revert response st. induction rounds as [|rounds IH]; intros response st.
  - intros [= <- <-]. exists []. rewrite app_nil_r.
    repeat split; [done|]. intros last [= <-] _. by left.
  - cbn [function_calling_loop].
    destruct (extract response) as [|call calls] eqn:Hcalls.
    + intros [= <- <-]. exists []. rewrite app_nil_r.
      repeat split; [cbn; lia|]. intros last _ Hn. discriminate Hn.
    + unfold bind at 1.
      destruct (execute_calls function_map (call :: calls) [] st)
        as [[e|results] st1] eqn:Hround.
      * intros [= <- <-].
        destruct (execute_calls_quiet _ _ _ _ _ _ Hround) as (evs & Ht & Hn).
        exists evs. repeat split; [done|lia|]. intros last Hres. discriminate Hres.
      * destruct (execute_calls_quiet _ _ _ _ _ _ Hround) as (evs1 & Ht1 & Hn1).
        unfold bind at 1, create at 1.
        destruct (responses_create _ (world st1)) as [[e|response'] w2] eqn:Hcreate.
        -- intros [= <- <-]. eexists (evs1 ++ [_]). cbn [trace].
           rewrite Ht1, <- app_assoc, submissions_app, submissions_create, Hn1.
           repeat split; [lia|]. intros last Hres. discriminate Hres.
        -- intros Hloop. apply IH in Hloop as (evs3 & Ht3 & Hn3 & Hlast).
           cbn [trace] in Ht3.
           eexists (evs1 ++ [_] ++ evs3).
           rewrite Ht3, Ht1, <- !app_assoc, !submissions_app,
             submissions_create, Hn1.
           repeat split; [lia|].
           intros last Hres Hn. right.
           destruct (Hlast last Hres) as [[-> ->]|(evs0 & req & ->)]; [lia| |].
           ++ eexists evs1, _. by rewrite app_nil_r.
           ++ eexists (evs1 ++ [_] ++ evs0), req. by rewrite <- !app_assoc.
Qed.

Lemma dispatch_unfold (self : MinCore) function_map (max_function_rounds : Z)
    (response : provider_response) st :
  dispatch self function_map max_function_rounds response st
  = match function_calling_loop self function_map
            (Z.to_nat max_function_rounds) response st with
    | (inr last, st') => (inr (resp_id last, resp_output_text last), st')
    | (inl e, st') => (inl e, st')
    end.
Proof. reflexivity. Qed.

(** C1: the loop makes at most [max_function_rounds] provider
    submissions (none when the limit is not positive) and nothing else
    than tool invocations between them; and when it has used every round
    and returns, it returns the id and the text of the response of its
    last submission, which is the last thing that happened: whatever
    calls that response asks for, none of them is executed. *)
Theorem dispatch_round_limit (self : MinCore) function_map
    (max_function_rounds : Z) (response : provider_response) st res st' :
  dispatch self function_map max_function_rounds response st = (res, st') ->
  exists evs,
    trace st' = trace st ++ evs
    /\ (Z.of_nat (submissions evs) <= Z.max 0 max_function_rounds)%Z
    /\ forall out, res = inr out ->
         submissions evs = Z.to_nat max_function_rounds ->
         (evs = [] /\ out = (resp_id response, resp_output_text response))
         \/ (exists evs0 req last,
               evs = evs0 ++ [EvCreate req (inr last)]
               /\ out = (resp_id last, resp_output_text last)).
Proof.
  rewrite dispatch_unfold.
  destruct (function_calling_loop self function_map
              (Z.to_nat max_function_rounds) response st)
    as [[e|last] st1] eqn:Hloop;
    intros [= <- <-];
    apply function_calling_loop_trace in Hloop as (evs & Ht & Hn & Hlast);
    exists evs; (repeat split; [done|lia|]).
  - intros out Hres. discriminate Hres.
  - intros out [= <-] Hall.
    destruct (Hlast last eq_refl Hall) as [[-> ->]|(evs0 & req & ->)].
    + by left.
    + right. by exists evs0, req, last.
Qed.

(** C7: on a response without a qualifying call item the loop changes
    neither the world nor the trace, so it submits nothing, and
    [send_message] returns the id and the text of that response. *)
Theorem no_calls_no_submissions (self : MinCore) function_map
    (max_function_rounds : Z) (response : provider_response) st :
  extract response = [] ->
  dispatch self function_map max_function_rounds response st
  = (inr (resp_id response, resp_output_text response), st).
Proof.
  intros Hnone. rewrite dispatch_unfold.
  destruct (Z.to_nat max_function_rounds) as [|rounds]; [reflexivity|].
  cbn [function_calling_loop]. by rewrite Hnone.
Qed.

(** C8: without a previous response id, the first thing [send_message]
    does is one submission of the system prompt alone; when that
    submission fails, or the schemas cannot be derived, nothing follows;
    otherwise the next event is the submission of the user message,
    against the id of the response to the first. *)
Theorem bootstrap_then_message (self : MinCore) (user_message : string)
    (functions : list (callable W)) (max_function_rounds : Z) st res st' :
  send_message self user_message None functions max_function_rounds st
  = (res, st') ->
  req_input (bootstrap_request self)
  = [InMessage "system" (system_prompt self)]
  /\ req_previous_response_id (bootstrap_request self) = NotGiven
  /\ req_tools (bootstrap_request self) = NotGiven
  /\ exists first w1,
       responses_create (bootstrap_request self) (world st) = (first, w1)
       /\ match first, prepare_functions functions with
          | inr conversation, inr prepared =>
              exists second w2 rest,
                responses_create
                  (user_request self user_message (resp_id conversation)
                     (fst prepared)) w1 = (second, w2)
                /\ trace st'
                   = trace st
                     ++ EvCreate (bootstrap_request self) (inr conversation)
                     :: EvCreate
                          (user_request self user_message
                             (resp_id conversation) (fst prepared)) second
                     :: rest
          | inr conversation, inl e =>
              res = inl e
              /\ trace st'
                 = trace st ++ [EvCreate (bootstrap_request self) (inr conversation)]
          | inl e, _ =>
              res = inl e
              /\ trace st' = trace st ++ [EvCreate (bootstrap_request self) (inl e)]
          end.
Proof.
  intros Hsend. repeat split.
  unfold send_message, _create_conversation in Hsend.
  unfold bind at 1 2, create at 1 in Hsend.
  destruct (responses_create (bootstrap_request self) (world st))
    as [first w1] eqn:Hfirst.
  exists first, w1. split; [done|].
  destruct first as [e|conversation].
  { injection Hsend as <- <-. by destruct (prepare_functions functions). }
  unfold ret at 1, bind at 1, lift at 1 in Hsend.
  destruct (prepare_functions functions) as [e|prepared].
  { by injection Hsend as <- <-. }
  unfold bind at 1, create at 1 in Hsend. cbn [world trace] in Hsend.
  destruct (responses_create _ w1) as [second w2] eqn:Hsecond.
  exists second, w2.
  destruct second as [e|response].
  { injection Hsend as <- <-. exists []. by rewrite <- app_assoc. }
  rewrite dispatch_unfold in Hsend.
  destruct (function_calling_loop self (snd prepared)
              (Z.to_nat max_function_rounds) response _)
    as [r st2] eqn:Hloop.
  apply function_calling_loop_trace in Hloop as (evs & Ht & _).
  cbn [trace] in Ht. exists evs. split; [done|].
  assert (trace st' = trace st2) as -> by (by destruct r; injection Hsend as <- <-).
  by rewrite Ht, <- !app_assoc.
Qed.

(** *** Errors of a call *)

(** What is assumed of the [json] module: an error object is written to
    a string that reads back as the same object. *)
Hypothesis json_error_roundtrip :
  forall msg : string,
    exists out, json_dumps (error_obj msg) = inr out
                /\ json_loads out = Some (error_obj msg).

(** A call whose [try] block raises an [Exception] without touching the
    world yields the error object of its message. *)
Lemma execute_call_raise function_map (call : pending_call) (cls msg out : string) :
  (forall st, call_function function_map (call_name call) (call_args call) st
              = (inl (PyException cls msg), st)) ->
  json_dumps (error_obj msg) = inr out ->
  forall st,
    execute_call function_map call st
    = (inr {| res_call_id := call_ident call; res_output := out |}, st).
Proof.
  intros Hraise Hdumps st.
  unfold execute_call, bind, try_except. rewrite Hraise.
  unfold ret, lift. cbn [error_obj exn_str]. fold (error_obj msg).
  by rewrite Hdumps.
Qed.

Lemma execute_calls_cons function_map (call : pending_call)
    (rest : list pending_call) (acc : list call_result) (r : call_result) st st1 :
  execute_call function_map call st = (inr r, st1) ->
  execute_calls function_map (call :: rest) acc st
  = execute_calls function_map rest (acc ++ [r]) st1.
Proof.
  intros Hcall. cbn [execute_calls]. unfold bind. by rewrite Hcall.
Qed.

(** C2: a call that names a function the registry does not have yields,
    without any effect, a call result with the call's id whose output
    reads back as the object [{"error": "Unknown function: <name>"}];
    the round goes on: its results are those of the calls before, this
    one, and those of the calls after. *)
Theorem unknown_function_error_result (fmap : gmap string (callable W))
    (pre post : list pending_call) (call : pending_call) :
  fmap !! call_name call = None ->
  exists out,
    json_loads out
    = Some (error_obj ("Unknown function: " +:+ call_name call))
    /\ (forall st,
          execute_call (Some fmap) call st
          = (inr {| res_call_id := call_ident call; res_output := out |}, st))
    /\ (forall st,
          execute_calls (Some fmap) (pre ++ call :: post) [] st
          = (before <- execute_calls (Some fmap) pre [] ;;
             after <- execute_calls (Some fmap) post [] ;;
             ret (before
                  ++ {| res_call_id := call_ident call; res_output := out |}
                  :: after)) st).
Proof.
  intros Hlookup.
  destruct (json_error_roundtrip ("Unknown function: " +:+ call_name call))
    as (out & Hdumps & Hloads).
  assert (Hcall : forall st,
             execute_call (Some fmap) call st
             = (inr {| res_call_id := call_ident call; res_output := out |}, st)).
  { eapply execute_call_raise; [|exact Hdumps].
    intros st. unfold call_function. by rewrite Hlookup. }
  exists out. repeat split; [done|done|].
  intros st. rewrite execute_calls_app. unfold bind.
  destruct (execute_calls (Some fmap) pre [] st) as [[e|before] st1]; [done|].
  rewrite (execute_calls_cons _ _ _ _ _ _ _ (Hcall st1)), execute_calls_acc.
  unfold ret.
  by destruct (execute_calls (Some fmap) post [] st1) as [[e|after] st2].
Qed.

(** C3, amended: a call to a registered function that raises an
    exception deriving from [Exception] on the call's keyword arguments
    yields a call result whose output reads back as the object
    [{"error": <message>}]; the exception stops there, and the round goes
    on with the calls that remain. *)
Theorem tool_exception_error_result (fmap : gmap string (callable W))
    (call : pending_call) (rest : list pending_call) (acc : list call_result)
    (function : callable W) (kwargs : list (string * pyval))
    (cls msg : string) st (w' : W) :
  fmap !! call_name call = Some function ->
  unpack_kwargs (call_args call) = inr kwargs ->
  fn_call function kwargs (world st) = (inl (PyException cls msg), w') ->
  exists out,
    json_loads out = Some (error_obj msg)
    /\ let r := {| res_call_id := call_ident call; res_output := out |} in
       let st1 :=
         State w' (trace st
                   ++ [EvInvoke (fn_name function) kwargs
                         (inl (PyException cls msg))]) in
       execute_call (Some fmap) call st = (inr r, st1)
       /\ execute_calls (Some fmap) (call :: rest) acc st
          = execute_calls (Some fmap) rest (acc ++ [r]) st1.
Proof.
  intros Hlookup Hkwargs Hraise.
  destruct (json_error_roundtrip msg) as (out & Hdumps & Hloads).
  exists out. split; [done|]. cbn zeta.
  assert (Hcall : execute_call (Some fmap) call st
                  = (inr {| res_call_id := call_ident call; res_output := out |},
                     State w' (trace st
                               ++ [EvInvoke (fn_name function) kwargs
                                     (inl (PyException cls msg))]))).
  { unfold execute_call, bind at 1, try_except, call_function.
    rewrite Hlookup, Hkwargs. unfold bind at 1, lift at 1, invoke.
    rewrite Hraise. unfold ret at 1, bind, lift.
    cbn [exn_str]. by rewrite Hdumps. }
  split; [done|]. by apply execute_calls_cons.
Qed.

(** C9: without functions no registry is built, and every call of a
    round then fails inside the [try] block: each of them yields a call
    result whose output reads back as an object with the key ["error"],
    nothing is invoked and the round completes. *)
Theorem no_registry_error_results :
  prepare_functions [] = inr (None, None)
  /\ exists msg out,
       json_loads out = Some (error_obj msg)
       /\ forall (calls : list pending_call) st,
            execute_calls None calls [] st
            = (inr (map (fun call =>
                           {| res_call_id := call_ident call;
                              res_output := out |}) calls), st).
Proof.
  split; [reflexivity|].
  destruct (json_error_roundtrip "argument of type 'NoneType' is not iterable")
    as (out & Hdumps & Hloads).
  eexists _, out. split; [exact Hloads|].
  assert (Hcall : forall call st,
             execute_call None call st
             = (inr {| res_call_id := call_ident call; res_output := out |}, st)).
  { intros call. eapply execute_call_raise; [|exact Hdumps]. done. }
  induction calls as [|call calls IH]; intros st; [done|].
  rewrite (execute_calls_cons _ _ _ _ _ _ _ (Hcall call st)), execute_calls_acc.
  by rewrite IH.
Qed.

End CoreTheory.

(** ** The schema deriver *)

Section SchemaTheory.

Context {W : Type}.
Variable get_function_schema : callable W -> pyresult pydict.

Local Abbreviation schemas_loop := (schemas_loop get_function_schema).
Local Abbreviation _generate_function_schemas :=
  (_generate_function_schemas get_function_schema).

Local Abbreviation derived := (derived get_function_schema).

Lemma schemas_loop_acc (function_list : list (callable W)) (acc : list pydict) :
  schemas_loop function_list acc
  = match schemas_loop function_list [] with
    | inr schemas => inr (acc ++ schemas)
    | inl e => inl e
    end.
Proof.
  revert acc. induction function_list as [|function rest IH]; intros acc; cbn.
  - by rewrite app_nil_r.
  - destruct (get_function_schema function) as [e|schema]; [done|].
    rewrite (IH (acc ++ _)), (IH [_]).
    destruct (schemas_loop rest []); [done|]. by rewrite <- app_assoc.
Qed.

(** C4, amended: the deriver returns a schema for every definition, in
    order and with the type tag set, when the introspection of every
    function succeeds; when it raises for a function, the deriver raises
    that exception, the first one met, and returns no schema at all. *)
Theorem schemas_all_or_raise (function_list : list (callable W)) :
  match _generate_function_schemas function_list with
  | inr schemas => Forall2 derived function_list schemas
  | inl e =>
      exists pre function post,
        function_list = pre ++ function :: post
        /\ Forall (fun f => returns (get_function_schema f) = true) pre
        /\ get_function_schema function = inl e
  end.
Proof.
  unfold _generate_function_schemas.
  induction function_list as [|function rest IH]; cbn; [constructor|].
  destruct (get_function_schema function) as [e|schema] eqn:Hschema.
  - exists [], function, rest. by repeat split.
  - rewrite schemas_loop_acc. cbn [app].
    destruct (schemas_loop rest []) as [e|schemas].
    + destruct IH as (pre & f & post & -> & Hpre & Hf).
      exists (function :: pre), f, post. repeat split; [|done].
      constructor; [by rewrite Hschema|done].
    + constructor; [by exists schema|done].
Qed.

End SchemaTheory.

(** ** The claims on sample runs *)

(** C4 as stated fails on a function list with the built-in [max]: its
    signature cannot be introspected, and the deriver raises instead of
    returning a schema list. *)
Lemma schema_deriver_raises :
  returns (Samples.schemas Samples.builtin_max) = false
  /\ returns (_generate_function_schemas Samples.schemas
                [Samples.get_color; Samples.builtin_max; Samples.get_number])
     = false
  /\ ~ exists schemas,
        _generate_function_schemas Samples.schemas
          [Samples.get_color; Samples.builtin_max; Samples.get_number]
        = inr schemas.
Proof.
  repeat split. intros (schemas & Hschemas). vm_compute in Hschemas.
  discriminate Hschemas.
Qed.

(** With a provider that asks for a call in every response and a limit of
    two rounds, the loop submits twice and returns the second response,
    whose call is still pending. *)
Example insistent_two_rounds :
  let run :=
    dispatch MiniJson.loads Samples.repr MiniJson.dumps Samples.insistent
      Samples.baz (Some Samples.registry) 2 Samples.asking Samples.initial in
  fst run = inr ("resp_1", "")
  /\ submissions (trace (snd run)) = 2
  /\ map is_create (trace (snd run)) = [false; true; false; true]
  /\ length (_extract_function_calls MiniJson.loads Samples.repr
               (Response "resp_1" "" (PList [Samples.reasoning_item; Samples.color_call])))
     = 1.
Proof. vm_compute. done. Qed.

Lemma dispatch_round_limit_witness :
  let run :=
    dispatch MiniJson.loads Samples.repr MiniJson.dumps Samples.insistent
      Samples.baz (Some Samples.registry) 2 Samples.asking Samples.initial in
  exists evs,
    trace (snd run) = trace Samples.initial ++ evs
    /\ (Z.of_nat (submissions evs) <= Z.max 0 2)%Z
    /\ forall out, fst run = inr out ->
         submissions evs = Z.to_nat 2 ->
         (evs = [] /\ out = (resp_id Samples.asking, resp_output_text Samples.asking))
         \/ (exists evs0 req last,
               evs = evs0 ++ [EvCreate req (inr last)]
               /\ out = (resp_id last, resp_output_text last)).
Proof.
  intros run.
  apply (dispatch_round_limit MiniJson.loads Samples.repr MiniJson.dumps
           Samples.insistent Samples.baz (Some Samples.registry) 2
           Samples.asking Samples.initial (fst run) (snd run)).
  vm_compute. reflexivity.
Defined.

Lemma no_calls_no_submissions_witness :
  dispatch MiniJson.loads Samples.repr MiniJson.dumps Samples.insistent
    Samples.baz (Some Samples.registry) 5 Samples.final Samples.initial
  = (inr (resp_id Samples.final, resp_output_text Samples.final), Samples.initial).
Proof.
  apply (no_calls_no_submissions MiniJson.loads Samples.repr MiniJson.dumps
           Samples.insistent Samples.baz (Some Samples.registry) 5
           Samples.final Samples.initial).
  reflexivity.
Defined.

(** [send("hello", None, ())] on a provider that answers in text: the
    bootstrap, then the message. *)
Example hello_bootstraps :
  let run :=
    send_message MiniJson.loads Samples.repr MiniJson.dumps Samples.schemas
      Samples.talkative Samples.baz "hello" None [] 5 Samples.initial in
  fst run = inr ("resp_1", "hello")
  /\ map (fun ev => match ev with
                    | EvCreate req _ => req_input req
                    | EvInvoke _ _ _ => []
                    end) (trace (snd run))
     = [[InMessage "system" "You are a helpful assistant named Baz."];
        [InMessage "user" "hello"]].
Proof. vm_compute. done. Qed.

Lemma bootstrap_then_message_witness :
  let run :=
    send_message MiniJson.loads Samples.repr MiniJson.dumps Samples.schemas
      Samples.talkative Samples.baz "hello" None [] 5 Samples.initial in
  req_input (bootstrap_request Samples.baz)
  = [InMessage "system" (system_prompt Samples.baz)]
  /\ req_previous_response_id (bootstrap_request Samples.baz) = NotGiven
  /\ req_tools (bootstrap_request Samples.baz) = NotGiven
  /\ exists first w1,
       Samples.talkative (bootstrap_request Samples.baz) (world Samples.initial)
       = (first, w1)
       /\ match first, prepare_functions Samples.schemas [] with
          | inr conversation, inr prepared =>
              exists second w2 rest,
                Samples.talkative
                  (user_request Samples.baz "hello" (resp_id conversation)
                     (fst prepared)) w1 = (second, w2)
                /\ trace (snd run)
                   = trace Samples.initial
                     ++ EvCreate (bootstrap_request Samples.baz) (inr conversation)
                     :: EvCreate
                          (user_request Samples.baz "hello"
                             (resp_id conversation) (fst prepared)) second
                     :: rest
          | inr conversation, inl e =>
              fst run = inl e
              /\ trace (snd run)
                 = trace Samples.initial
                   ++ [EvCreate (bootstrap_request Samples.baz) (inr conversation)]
          | inl e, _ =>
              fst run = inl e
              /\ trace (snd run)
                 = trace Samples.initial
                   ++ [EvCreate (bootstrap_request Samples.baz) (inl e)]
          end.
Proof.
  intros run.
  apply (bootstrap_then_message MiniJson.loads Samples.repr MiniJson.dumps
           Samples.schemas Samples.talkative Samples.baz "hello" [] 5
           Samples.initial (fst run) (snd run)).
  vm_compute. reflexivity.
Defined.

Lemma unknown_function_error_result_witness :
  exists out,
    MiniJson.loads out
    = Some (error_obj ("Unknown function: " +:+ call_name Samples.weather_call))
    /\ (forall st,
          execute_call Samples.repr MiniJson.dumps (Some Samples.registry)
            Samples.weather_call st
          = (inr {| res_call_id := call_ident Samples.weather_call;
                    res_output := out |}, st))
    /\ (forall st,
          execute_calls Samples.repr MiniJson.dumps (Some Samples.registry)
            ([Samples.number_call] ++ Samples.weather_call :: [Samples.number_call])
            [] st
          = (before <- execute_calls Samples.repr MiniJson.dumps
                         (Some Samples.registry) [Samples.number_call] [] ;;
             after <- execute_calls Samples.repr MiniJson.dumps
                        (Some Samples.registry) [Samples.number_call] [] ;;
             ret (before
                  ++ {| res_call_id := call_ident Samples.weather_call;
                        res_output := out |}
                  :: after)) st).
Proof.
  apply (unknown_function_error_result MiniJson.loads Samples.repr
           MiniJson.dumps mini_json_error_roundtrip Samples.registry
           [Samples.number_call] [Samples.number_call] Samples.weather_call).
  vm_compute. reflexivity.
Defined.

(** The unknown call of the sample round, as the provider gets it. *)
Example unknown_function_output :
  fst (execute_calls Samples.repr MiniJson.dumps (Some Samples.registry)
         [Samples.number_call; Samples.weather_call; Samples.failing_call] []
         (State 41 []))
  = inr [ {| res_call_id := "call_2"; res_output := "41" |};
          {| res_call_id := "call_9";
             res_output :=
               "{" +:+ MiniJson.quote "error" +:+ ": "
               +:+ MiniJson.quote "Unknown function: get_weather" +:+ "}" |};
          {| res_call_id := "call_3";
             res_output :=
               "{" +:+ MiniJson.quote "error" +:+ ": "
               +:+ MiniJson.quote "boom" +:+ "}" |} ].
Proof. vm_compute. reflexivity. Qed.

(** C3 as stated fails on a tool that raises [SystemExit]: the exception
    derives from [BaseException] only, [except Exception] lets it through,
    the round stops and [send_message] ends with it. *)
Lemma system_exit_propagates :
  Samples.registry !! call_name Samples.quit_call = Some Samples.quit
  /\ unpack_kwargs (call_args Samples.quit_call) = inr []
  /\ fn_call Samples.quit [] (world Samples.initial)
     = (inl (PyBaseException "SystemExit" "0"), 0)
  /\ fst (execute_call Samples.repr MiniJson.dumps (Some Samples.registry)
            Samples.quit_call Samples.initial)
     = inl (PyBaseException "SystemExit" "0")
  /\ fst (execute_calls Samples.repr MiniJson.dumps (Some Samples.registry)
            [Samples.quit_call; Samples.number_call] [] Samples.initial)
     = inl (PyBaseException "SystemExit" "0")
  /\ fst (dispatch MiniJson.loads Samples.repr MiniJson.dumps Samples.talkative
            Samples.baz (Some Samples.registry) 5
            (Response "resp_0" ""
               (PList [Samples.tool_call (PStr "quit") (PStr "{}")
                         (PStr "call_4") (PStr "fc_4")]))
            Samples.initial)
     = inl (PyBaseException "SystemExit" "0").
Proof. vm_compute. done. Qed.

Lemma tool_exception_error_result_witness :
  exists out,
    MiniJson.loads out = Some (error_obj "boom")
    /\ let r := {| res_call_id := call_ident Samples.failing_call;
                   res_output := out |} in
       let st1 :=
         State 1 (trace Samples.initial
                  ++ [EvInvoke (fn_name Samples.failing) []
                        (inl (PyException "RuntimeError" "boom"))]) in
       execute_call Samples.repr MiniJson.dumps (Some Samples.registry)
         Samples.failing_call Samples.initial = (inr r, st1)
       /\ execute_calls Samples.repr MiniJson.dumps (Some Samples.registry)
            (Samples.failing_call :: [Samples.number_call]) [] Samples.initial
          = execute_calls Samples.repr MiniJson.dumps (Some Samples.registry)
              [Samples.number_call] ([] ++ [r]) st1.
Proof.
  apply (tool_exception_error_result MiniJson.loads Samples.repr
           MiniJson.dumps mini_json_error_roundtrip Samples.registry
           Samples.failing_call [Samples.number_call] [] Samples.failing []
           "RuntimeError" "boom" Samples.initial 1);
    vm_compute; reflexivity.
Defined.

Lemma no_registry_error_results_witness :
  prepare_functions Samples.schemas [] = inr (None, None)
  /\ exists msg out,
       MiniJson.loads out = Some (error_obj msg)
       /\ forall (calls : list pending_call) (st : state nat),
            execute_calls Samples.repr MiniJson.dumps None calls [] st
            = (inr (map (fun call =>
                           {| res_call_id := call_ident call;
                              res_output := out |}) calls), st).
Proof.
  apply (no_registry_error_results MiniJson.loads Samples.repr MiniJson.dumps
           Samples.schemas mini_json_error_roundtrip).
Defined.

(** Without functions, the call the provider asks for comes back to it as
    an error and the loop goes on to its limit. *)
Example no_functions_round :
  let run :=
    send_message MiniJson.loads Samples.repr MiniJson.dumps Samples.schemas
      Samples.insistent Samples.baz "hello" (Some "resp_prev") [] 1
      Samples.initial in
  fst run = inr ("resp_1", "")
  /\ map (fun ev => match ev with
                    | EvCreate req _ => req_input req
                    | EvInvoke _ _ _ => []
                    end) (trace (snd run))
     = [[InMessage "user" "hello"];
        [InFunctionCallOutput "call_1"
           ("{" +:+ MiniJson.quote "error" +:+ ": "
            +:+ MiniJson.quote "argument of type 'NoneType' is not iterable"
            +:+ "}")]].
Proof. vm_compute. done. Qed.

(** * Further properties of the code *)

(** ** Dicts *)

Lemma dict_get_set_same (k : string) (v : pyval) (d : pydict) :
  dict_get k (dict_set k v d) = Some v.
Proof.
  induction d as [|[key v0] d IH]; cbn; [by rewrite String.eqb_refl|].
  destruct key; cbn; try exact IH.
  destruct (String.eqb k s) eqn:Hk; cbn; by rewrite ?Hk.
Qed.

(** After [d[k] = v] the dict gives [v] for [k] and, for every other
    string key, what it gave before. *)
Lemma dict_set_get (k k' : string) (v : pyval) (d : pydict) :
  dict_get k' (dict_set k v d)
  = if String.eqb k' k then Some v else dict_get k' d.
Proof.
  induction d as [|[key v0] d IH]; cbn.
  - by destruct (String.eqb k' k).
  - destruct key; cbn; try exact IH.
    destruct (String.eqb k s) eqn:Hk; cbn.
    + apply String.eqb_eq in Hk. subst s. by destruct (String.eqb k' k).
    + destruct (String.eqb k' s) eqn:Hk'; [|exact IH].
      apply String.eqb_eq in Hk'. subst s.
      rewrite String.eqb_sym in Hk. by rewrite Hk.
Qed.

(** [d[k] = v] keeps the keys of the dict in their order, and a key that
    was not there goes last. *)
Lemma dict_set_keys (k : string) (v : pyval) (d : pydict) :
  map fst (dict_set k v d)
  = map fst d ++ match dict_get k d with Some _ => [] | None => [PStr k] end.
Proof.
  induction d as [|[key v0] d IH]; cbn; [done|].
  destruct key; cbn; try (by rewrite IH).
  destruct (String.eqb k s); cbn; [by rewrite app_nil_r|by rewrite IH].
Qed.

(** ** The function registry and the schemas *)

Section RegistryTheory.

Context {W : Type}.
Variable get_function_schema : callable W -> pyresult pydict.

Implicit Types (function_list : list (callable W)) (name : string).

Lemma generate_function_map_snoc function_list (function : callable W) :
  _generate_function_map (function_list ++ [function])
  = <[fn_name function := function]> (_generate_function_map function_list).
Proof. unfold _generate_function_map. by rewrite foldl_app. Qed.

(** X1: the registry gives, for a name, the last function of the list
    with that name, and nothing for a name that no function has. *)
Theorem function_map_last_wins function_list name :
  _generate_function_map function_list !! name
  = last (filter (fun function => fn_name function = name) function_list).
Proof.
  induction function_list as [|function function_list IH] using rev_ind.
  - done.
  - rewrite generate_function_map_snoc, filter_app, filter_cons, filter_nil.
    destruct (decide (fn_name function = name)) as [<-|Hne].
    + by rewrite lookup_insert_eq, last_snoc.
    + by rewrite lookup_insert_ne, app_nil_r.
Qed.

(** X2: when the functions of the list have different names, the registry
    gives every one of them under its name. *)
Theorem function_map_complete function_list (function : callable W) :
  NoDup (map fn_name function_list) ->
  function ∈ function_list ->
  _generate_function_map function_list !! fn_name function = Some function.
Proof.
  induction function_list as [|g function_list IH] using rev_ind;
    [by intros _ ?%elem_of_nil|].
  rewrite map_app, generate_function_map_snoc. cbn [map].
  intros [Hdup [Hfresh _]]%NoDup_app [Hin|Hin%list_elem_of_singleton]%elem_of_app.
  - rewrite lookup_insert_ne; [by apply IH|].
    intros Heq. apply (Hfresh (fn_name function)).
    + apply list_elem_of_fmap. by exists function.
    + rewrite Heq. apply list_elem_of_singleton. done.
  - subst g. by rewrite lookup_insert_eq.
Qed.

(** X3: the names the registry knows are the names of the functions of
    the list. *)
Theorem function_map_names function_list name :
  is_Some (_generate_function_map function_list !! name)
  <-> name ∈ map fn_name function_list.
Proof.
  induction function_list as [|g function_list IH] using rev_ind.
  - cbn. rewrite lookup_empty. split; [by intros [? ?]|by intros ?%elem_of_nil].
  - rewrite generate_function_map_snoc, map_app, elem_of_app. cbn [map].
    rewrite list_elem_of_singleton.
    destruct (decide (fn_name g = name)) as [<-|Hne].
    + rewrite lookup_insert_eq. split; [by right|by eexists].
    + rewrite lookup_insert_ne by done. rewrite IH. split; [by left|].
      by intros [?|?].
Qed.

(** X4: the schemas that the deriver returns are one for each function,
    in their order; each of them is the schema of the introspection of its
    function with ["type"] set to ["function"], every other key as it
    was. *)
Theorem schemas_typed function_list (schemas : list pydict) :
  _generate_function_schemas get_function_schema function_list = inr schemas ->
  Forall2 (fun function schema =>
             exists d,
               get_function_schema function = inr d
               /\ forall k,
                    dict_get k schema
                    = if String.eqb k "type" then Some (PStr "function")
                      else dict_get k d)
    function_list schemas.
Proof.
  unfold _generate_function_schemas. revert schemas.
  induction function_list as [|function function_list IH]; intros schemas; cbn.
  - intros [= <-]. constructor.
  - destruct (get_function_schema function) as [e|schema] eqn:Hschema; [done|].
    rewrite schemas_loop_acc.
    destruct (schemas_loop get_function_schema function_list []) as [e|rest];
      [done|].
    intros [= <-]. cbn. constructor; [|by apply IH].
    exists schema. split; [done|]. intros k. apply dict_set_get.
Qed.

End RegistryTheory.

(** ** The calls of a round *)

Section RoundTheory.

Context {W : Type}.
Variable json_loads : string -> option pyval.
Variable py_repr : pyval -> string.
Variable json_dumps : pyval -> pyresult string.

Local Abbreviation execute_call := (execute_call py_repr json_dumps).
Local Abbreviation execute_calls := (execute_calls py_repr json_dumps).

Implicit Types (st : state W) (function_map : option (gmap string (callable W))).

Lemma execute_call_id function_map (call : pending_call) st (r : call_result) st' :
  execute_call function_map call st = (inr r, st') ->
  res_call_id r = call_ident call.
Proof.
  unfold execute_call, bind, ret, lift.
  destruct (try_except _ _ st) as [[e|v] st1]; [done|].
  destruct (match v with PDict _ | PList _ => _ | _ => _ end); [done|].
  by intros [= <- _].
Qed.

(** When a round returns, its results are one per call, in the order of
    the calls, each with the id of its call. *)
Lemma round_results_match_calls function_map (calls : list pending_call)
    st (results : list call_result) st' :
  execute_calls function_map calls [] st = (inr results, st') ->
  map res_call_id results = map call_ident calls.
Proof.
  revert st results st'.
  induction calls as [|call calls IH]; intros st results st'.
  - by intros [= <-].
  - cbn [execute_calls]. unfold bind.
    destruct (execute_call function_map call st) as [[e|r] st1] eqn:Hcall; [done|].
    rewrite execute_calls_acc.
    destruct (execute_calls function_map calls [] st1) as [[e|rest] st2] eqn:Hrest;
      [done|].
    intros [= <- _]. cbn.
    by rewrite (execute_call_id _ _ _ _ _ Hcall), (IH _ _ _ Hrest).
Qed.

(** X5: what a tool returns goes to the provider as [json.dumps] of it
    when it is a dict or a list and as [str] of it otherwise (a string as
    it is); [json.dumps] is outside the [try] block, so when it raises,
    the exception leaves [send_message], after the tool has run. *)
Theorem tool_result_output (fmap : gmap string (callable W))
    (call : pending_call) (function : callable W)
    (kwargs : list (string * pyval)) (v : pyval) st (w' : W) :
  fmap !! call_name call = Some function ->
  unpack_kwargs (call_args call) = inr kwargs ->
  fn_call function kwargs (world st) = (inr v, w') ->
  execute_call (Some fmap) call st
  = (match (if is_dict v || is_list v then json_dumps v
            else inr (py_str py_repr v)) with
     | inr output => inr {| res_call_id := call_ident call; res_output := output |}
     | inl e => inl e
     end,
     State w' (trace st ++ [EvInvoke (fn_name function) kwargs (inr v)])).
Proof.
  intros Hlookup Hkwargs Hcall.
  unfold execute_call, bind at 1, try_except, call_function.
  rewrite Hlookup, Hkwargs. unfold bind at 1, lift at 1, invoke.
  rewrite Hcall. unfold bind, lift, ret.
  destruct v; cbn [is_dict is_list orb]; try reflexivity;
    by destruct (json_dumps _).
Qed.

Lemma unpack_kwargs_error (args : pyval) (e : exn) :
  unpack_kwargs args = inl e -> exists msg, e = PyException "TypeError" msg.
Proof.
  unfold unpack_kwargs. destruct args; try (intros [= <-]; by eexists).
  destruct (kwargs_of d); [done|]. intros [= <-]. by eexists.
Qed.

Lemma execute_call_trace function_map (call : pending_call) st res st' :
  execute_call function_map call st = (res, st') ->
  exists evs,
    trace st' = trace st ++ evs
    /\ Forall (fun ev => is_invoke ev = true) evs
    /\ length evs <= 1.
Proof.
  assert (Hnil : exists evs : list event,
             trace st = trace st ++ evs
             /\ Forall (fun ev => is_invoke ev = true) evs /\ length evs <= 1).
  { exists []. rewrite app_nil_r. repeat split; [constructor|cbn; lia]. }
  unfold execute_call, bind, try_except, call_function, lift, ret, raise, invoke.
  destruct function_map as [fmap|]; cbn.
  - destruct (fmap !! call_name call) as [function|]; cbn.
    + destruct (unpack_kwargs (call_args call)) as [[cls msg|cls msg]|kwargs]; cbn.
      * destruct (json_dumps _); intros [= <- <-]; exact Hnil.
      * intros [= <- <-]; exact Hnil.
      * destruct (fn_call function kwargs (world st)) as [r w'] eqn:Hcall.
        assert (Hone : exists evs : list event,
                   trace st ++ [EvInvoke (fn_name function) kwargs r]
                   = trace st ++ evs
                   /\ Forall (fun ev => is_invoke ev = true) evs
                   /\ length evs <= 1).
        { eexists [_]. repeat split; [by repeat constructor|cbn; lia]. }
        destruct r as [[cls msg|cls msg]|v]; cbn.
        -- destruct (json_dumps _); intros [= <- <-]; exact Hone.
        -- intros [= <- <-]; exact Hone.
        -- destruct (match v with PDict _ | PList _ => _ | _ => _ end);
             intros [= <- <-]; exact Hone.
    + destruct (json_dumps _); intros [= <- <-]; exact Hnil.
  - destruct (json_dumps _); intros [= <- <-]; exact Hnil.
Qed.

(** X6: whatever a round ends with, all it does is invoke tools, at most
    one for each call; it submits nothing to the provider. *)
Theorem round_only_invokes function_map (calls : list pending_call)
    (acc : list call_result) st res st' :
  execute_calls function_map calls acc st = (res, st') ->
  exists evs,
    trace st' = trace st ++ evs
    /\ Forall (fun ev => is_invoke ev = true) evs
    /\ length evs <= length calls.
Proof.
  revert acc st. induction calls as [|call calls IH]; intros acc st.
  - intros [= <- <-]. exists []. rewrite app_nil_r. by repeat split.
  - cbn [execute_calls]. unfold bind.
    destruct (execute_call function_map call st) as [[e|r] st1] eqn:Hcall.
    + intros [= <- <-].
      destruct (execute_call_trace _ _ _ _ _ Hcall) as (evs & Ht & Hinv & Hlen).
      exists evs. repeat split; [done|done|cbn; lia].
    + intros Hrest.
      destruct (execute_call_trace _ _ _ _ _ Hcall) as (evs & Ht & Hinv & Hlen).
      destruct (IH _ _ Hrest) as (evs' & Ht' & Hinv' & Hlen').
      exists (evs ++ evs'). rewrite Ht', Ht, <- app_assoc, length_app.
      repeat split; [by apply Forall_app|cbn; lia].
Qed.

(** *** Arguments that cannot be passed *)

Hypothesis json_error_roundtrip :
  forall msg : string,
    exists out, json_dumps (error_obj msg) = inr out
                /\ json_loads out = Some (error_obj msg).

(** X7: when the arguments of a call are not a dict with string keys
    (the JSON of the provider was a list or a number, say), the registered
    function is not invoked: the [TypeError] of the call is caught, and the
    call's result reads back as an error object with its message. *)
Theorem bad_arguments_error_result (fmap : gmap string (callable W))
    (call : pending_call) (function : callable W) (e : exn) :
  fmap !! call_name call = Some function ->
  unpack_kwargs (call_args call) = inl e ->
  exists out,
    json_loads out = Some (error_obj (exn_str e))
    /\ forall st,
         execute_call (Some fmap) call st
         = (inr {| res_call_id := call_ident call; res_output := out |}, st).
Proof.
  intros Hlookup Hkwargs.
  destruct (unpack_kwargs_error _ _ Hkwargs) as [msg ->].
  destruct (json_error_roundtrip msg) as (out & Hdumps & Hloads).
  exists out. split; [done|].
  eapply execute_call_raise; [|exact Hdumps].
  intros st. unfold call_function. rewrite Hlookup.
  unfold bind, lift. by rewrite Hkwargs.
Qed.

End RoundTheory.

Lemma tool_result_output_witness :
  execute_call Samples.repr MiniJson.dumps (Some Samples.registry)
    Samples.number_call (State 41 [])
  = (match (if is_dict (PInt 41) || is_list (PInt 41) then MiniJson.dumps (PInt 41)
            else inr (py_str Samples.repr (PInt 41))) with
     | inr output =>
         inr {| res_call_id := call_ident Samples.number_call;
                res_output := output |}
     | inl e => inl e
     end,
     State 41 (trace (State 41 [])
               ++ [EvInvoke (fn_name Samples.get_number) [] (inr (PInt 41))])).
Proof.
  apply (tool_result_output Samples.repr MiniJson.dumps Samples.registry
           Samples.number_call Samples.get_number [] (PInt 41) (State 41 []) 41);
    vm_compute; reflexivity.
Defined.

Lemma round_only_invokes_witness :
  exists evs,
    trace (snd (execute_calls Samples.repr MiniJson.dumps (Some Samples.registry)
                  [Samples.number_call; Samples.weather_call] [] (State 41 [])))
    = trace (State 41 []) ++ evs
    /\ Forall (fun ev => is_invoke ev = true) evs
    /\ length evs <= length [Samples.number_call; Samples.weather_call].
Proof.
  apply (round_only_invokes Samples.repr MiniJson.dumps (Some Samples.registry)
           [Samples.number_call; Samples.weather_call] [] (State 41 [])
           (fst (execute_calls Samples.repr MiniJson.dumps (Some Samples.registry)
                   [Samples.number_call; Samples.weather_call] [] (State 41 [])))).
  vm_compute. reflexivity.
Defined.

Lemma bad_arguments_error_result_witness :
  exists out,
    MiniJson.loads out
    = Some (error_obj (exn_str (PyException "TypeError"
                                  "argument after ** must be a mapping")))
    /\ forall st : state nat,
         execute_call Samples.repr MiniJson.dumps (Some Samples.registry)
           {| call_ident := "call_5"; call_name := "get_number";
              call_args := PList [PInt 1] |} st
         = (inr {| res_call_id := "call_5"; res_output := out |}, st).
Proof.
  apply (bad_arguments_error_result MiniJson.loads Samples.repr MiniJson.dumps
           mini_json_error_roundtrip Samples.registry
           {| call_ident := "call_5"; call_name := "get_number";
              call_args := PList [PInt 1] |} Samples.get_number);
    vm_compute; reflexivity.
Defined.

(** ** The rounds of the loop *)

Lemma last_created_invokes (evs evs' : list event) :
  Forall (fun ev => is_invoke ev = true) evs ->
  last_created (evs ++ evs') = last_created evs'.
Proof.
  induction 1 as [|ev evs Hev _ IH]; [done|]. by destruct ev.
Qed.

Lemma all_created_invokes (evs : list event) :
  Forall (fun ev => is_invoke ev = true) evs -> all_created evs.
Proof. intros Hinv. eapply Forall_impl; [exact Hinv|]. by intros []. Qed.

Lemma chained_invokes (previous : string) (evs evs' : list event) :
  Forall (fun ev => is_invoke ev = true) evs ->
  chained previous (evs ++ evs') <-> chained previous evs'.
Proof.
  induction 1 as [|ev evs Hev _ IH]; [done|]. by destruct ev.
Qed.

Lemma follows_up_invokes calls_of (self : MinCore) (response : provider_response)
    (evs evs' : list event) :
  Forall (fun ev => is_invoke ev = true) evs ->
  follows_up calls_of self response (evs ++ evs')
  <-> follows_up calls_of self response evs'.
Proof.
  induction 1 as [|ev evs Hev _ IH]; [done|]. by destruct ev.
Qed.

Lemma follows_up_chained calls_of (self : MinCore) (response : provider_response)
    (evs : list event) :
  follows_up calls_of self response evs -> chained (resp_id response) evs.
Proof.
  revert response. induction evs as [|[req [e|r]|] evs IH]; intros response; cbn;
    [done| | |by apply IH].
  - by intros (_ & ? & _ & _ & ?).
  - intros (_ & ? & _ & _ & ?). split; [done|]. by apply IH.
Qed.

Section LoopTheory.

Context {W : Type}.
Variable json_loads : string -> option pyval.
Variable py_repr : pyval -> string.
Variable json_dumps : pyval -> pyresult string.
Variable get_function_schema : callable W -> pyresult pydict.
Variable responses_create : request -> W -> pyresult provider_response * W.

Local Abbreviation extract := (_extract_function_calls json_loads py_repr).
Local Abbreviation execute_calls := (execute_calls py_repr json_dumps).
Local Abbreviation function_calling_loop :=
  (function_calling_loop json_loads py_repr json_dumps responses_create).
Local Abbreviation dispatch :=
  (dispatch json_loads py_repr json_dumps responses_create).
Local Abbreviation send_message :=
  (send_message json_loads py_repr json_dumps get_function_schema
     responses_create).

Implicit Types (st : state W) (function_map : option (gmap string (callable W))).

Lemma execute_calls_invokes function_map (calls : list pending_call)
    (acc : list call_result) st res st' :
  execute_calls function_map calls acc st = (res, st') ->
  exists evs,
    trace st' = trace st ++ evs /\ Forall (fun ev => is_invoke ev = true) evs.
Proof.
  revert acc st. induction calls as [|call calls IH]; intros acc st.
  - intros [= <- <-]. exists []. by rewrite app_nil_r.
  - cbn [execute_calls]. unfold bind.
    destruct (execute_call py_repr json_dumps function_map call st)
      as [[e|r] st1] eqn:Hcall;
      destruct (execute_call_trace _ _ _ _ _ _ _ Hcall) as (evs & Ht & Hinv & _).
    + intros [= <- <-]. by exists evs.
    + intros Hrest. destruct (IH _ _ Hrest) as (evs' & Ht' & Hinv').
      exists (evs ++ evs'). rewrite Ht', Ht, <- app_assoc.
      split; [done|by apply Forall_app].
Qed.

(** The trace of the loop: its submissions follow up on the responses,
    the response it returns is the last one, and the exception of a
    submission that failed is its outcome. *)
Lemma function_calling_loop_invariant (self : MinCore) function_map
    (rounds : nat) (response : provider_response) st res st' :
  function_calling_loop self function_map rounds response st = (res, st') ->
  exists evs,
    trace st' = trace st ++ evs
    /\ follows_up extract self response evs
    /\ (forall last, res = inr last ->
         last = default response (last_created evs))
    /\ (forall req e, EvCreate req (inl e) ∈ evs -> res = inl e).
Proof.
  revert response st. induction rounds as [|rounds IH]; intros response st.
  { intros [= <- <-]. exists []. rewrite app_nil_r.
    repeat split; [by intros ? [= <-]|by intros ? ? ?%elem_of_nil]. }
  cbn [function_calling_loop].
  destruct (extract response) as [|call calls] eqn:Hcalls.
  { intros [= <- <-]. exists []. rewrite app_nil_r.
    repeat split; [by intros ? [= <-]|by intros ? ? ?%elem_of_nil]. }
  unfold bind at 1.
  destruct (execute_calls function_map (call :: calls) [] st)
    as [[e|results] st1] eqn:Hround;
    destruct (execute_calls_invokes _ _ _ _ _ _ Hround) as (evs1 & Ht1 & Hinv1).
  { intros [= <- <-]. exists evs1. repeat split; [done| |done|].
    - rewrite <- (app_nil_r evs1). by apply follows_up_invokes.
    - intros req e' Hin. rewrite Forall_forall in Hinv1.
      by apply Hinv1 in Hin. }
  apply round_results_match_calls in Hround as Hids.
  unfold bind at 1, create at 1.
  destruct (responses_create _ (world st1)) as [[e|response'] w2].
  - intros [= <- <-]. eexists (evs1 ++ [_]). cbn [trace].
    rewrite Ht1, <- app_assoc. repeat split; [| done |].
    + apply follows_up_invokes; [done|]. cbn. rewrite Hcalls.
      repeat split. by exists results.
    + intros req e' [Hin|Hin%list_elem_of_singleton]%elem_of_app.
      * rewrite Forall_forall in Hinv1. by apply Hinv1 in Hin.
      * by injection Hin as -> ->.
  - intros Hloop. apply IH in Hloop as (evs3 & Ht3 & Hfollow & Hlast & Hfail).
    cbn [trace] in Ht3. eexists (evs1 ++ _ :: evs3).
    rewrite Ht3, Ht1, <- !app_assoc. repeat split.
    + apply follows_up_invokes; [done|]. cbn. rewrite Hcalls.
      repeat split; [by exists results|done].
    + intros last Hres. rewrite last_created_invokes by done. cbn.
      by apply Hlast.
    + intros req e' [Hin|[Hin|Hin]%elem_of_cons]%elem_of_app.
      * rewrite Forall_forall in Hinv1. by apply Hinv1 in Hin.
      * done.
      * by eapply Hfail.
Qed.

(** X8: every submission of the loop goes to the model of the session
    without tools, continues the response that the loop was at, and
    carries one output for each call of that response, in the order of
    the calls; after a submission that fails the loop does nothing. *)
Theorem loop_follows_up (self : MinCore) function_map (rounds : nat)
    (response : provider_response) st res st' :
  function_calling_loop self function_map rounds response st = (res, st') ->
  exists evs,
    trace st' = trace st ++ evs /\ follows_up extract self response evs.
Proof.
  intros Hloop.
  apply function_calling_loop_invariant in Hloop as (evs & Ht & Hfollow & _).
  by exists evs.
Qed.

(** X9: with a round limit of zero or less the loop does nothing, also
    on a response that asks for calls: no tool runs, nothing is submitted,
    and the id and the text of that response are returned. *)
Theorem dispatch_zero_rounds (self : MinCore) function_map
    (max_function_rounds : Z) (response : provider_response) st :
  (max_function_rounds <= 0)%Z ->
  dispatch self function_map max_function_rounds response st
  = (inr (resp_id response, resp_output_text response), st).
Proof.
  intros Hle. rewrite dispatch_unfold.
  replace (Z.to_nat max_function_rounds) with 0 by lia. reflexivity.
Qed.

(** What [send_message] does once it has a previous response id. *)
Local Abbreviation continue_message self user_message previous functions rounds :=
  (prepared <- lift (prepare_functions get_function_schema functions) ;;
   response <- create responses_create
                 (user_request self user_message previous (fst prepared)) ;;
   dispatch self (snd prepared) rounds response).

Lemma continue_message_invariant (self : MinCore) (user_message previous : string)
    (functions : list (callable W)) (max_function_rounds : Z) st res st' :
  continue_message self user_message previous functions max_function_rounds st
  = (res, st') ->
  exists evs,
    trace st' = trace st ++ evs
    /\ submissions evs <= 1 + Z.to_nat max_function_rounds
    /\ chained previous evs
    /\ (forall out, res = inr out ->
         exists last, last_created evs = Some last
                      /\ out = (resp_id last, resp_output_text last))
    /\ (forall req e, EvCreate req (inl e) ∈ evs -> res = inl e)
    /\ match prepare_functions get_function_schema functions with
       | inl e => res = inl e /\ st' = st
       | inr prepared =>
           exists r w1 evs',
             responses_create
               (user_request self user_message previous (fst prepared))
               (world st) = (r, w1)
             /\ evs = EvCreate
                        (user_request self user_message previous (fst prepared))
                        r :: evs'
       end.
Proof.
  unfold bind at 1, lift at 1.
  destruct (prepare_functions get_function_schema functions) as [e|prepared].
  { intros [= <- <-]. exists []. rewrite app_nil_r.
    repeat split; [cbn; lia|done|by intros ? ? ?%elem_of_nil]. }
  unfold bind at 1, create at 1.
  destruct (responses_create _ (world st)) as [[e|response] w1] eqn:Hcreate.
  { intros [= <- <-]. eexists [_]. cbn [trace]. repeat split.
    - rewrite submissions_create. lia.
    - done.
    - intros req e' Hin%list_elem_of_singleton. by injection Hin as -> ->.
    - by eexists _, _, []. }
  rewrite dispatch_unfold.
  destruct (function_calling_loop self (snd prepared)
              (Z.to_nat max_function_rounds) response _)
    as [r st2] eqn:Hloop.
  pose proof Hloop as Hbound.
  apply function_calling_loop_trace in Hbound as (evs' & Ht' & Hn & _).
  apply function_calling_loop_invariant in Hloop
    as (evs & Ht & Hfollow & Hlast & Hfail).
  rewrite Ht in Ht'. apply app_inv_head in Ht'. subst evs'.
  cbn [trace] in Ht. intros Hres.
  assert (trace st' = trace st2) as -> by (by destruct r; injection Hres as <- <-).
  eexists (_ :: evs). rewrite Ht, <- app_assoc. repeat split.
  - change (EvCreate ?req ?r :: evs) with ([EvCreate req r] ++ evs).
    rewrite submissions_app, submissions_create. lia.
  - by apply follows_up_chained in Hfollow.
  - intros out ->. destruct r as [e|last]; [done|].
    injection Hres as <- _. exists last. split; [|done].
    cbn [last_created]. f_equal. symmetry. by apply Hlast.
  - intros req e [Hin|Hin]%elem_of_cons; [done|].
    apply Hfail in Hin. subst r. by injection Hres as <- _.
  - by eexists _, _, evs.
Qed.

Lemma chained_failure_last (previous : string) (evs : list event)
    (req : request) (e : exn) :
  chained previous evs ->
  EvCreate req (inl e) ∈ evs ->
  last evs = Some (EvCreate req (inl e)).
Proof.
  revert previous. induction evs as [|ev evs IH]; intros previous;
    [by intros _ ?%elem_of_nil|].
  destruct ev as [req' [e'|response]|]; cbn [chained].
  - intros [_ Hnil] Hin. subst evs.
    apply list_elem_of_singleton in Hin. by rewrite Hin.
  - intros [_ Hchain] [Hin|Hin]%elem_of_cons; [done|].
    rewrite <- (IH _ Hchain Hin).
    destruct evs; [by apply elem_of_nil in Hin|done].
  - intros Hchain [Hin|Hin]%elem_of_cons; [done|].
    rewrite <- (IH _ Hchain Hin).
    destruct evs; [by apply elem_of_nil in Hin|done].
Qed.

(** The trace of [send_message]. *)
Lemma send_message_invariant (self : MinCore) (user_message : string)
    (previous_response_id : option string) (functions : list (callable W))
    (max_function_rounds : Z) st res st' :
  send_message self user_message previous_response_id functions
    max_function_rounds st = (res, st') ->
  exists evs,
    trace st' = trace st ++ evs
    /\ submissions evs
       <= match previous_response_id with None => 2 | Some _ => 1 end
          + Z.to_nat max_function_rounds
    /\ match previous_response_id with
       | Some previous => chained previous evs
       | None =>
           exists r evs',
             evs = EvCreate (bootstrap_request self) r :: evs'
             /\ match r with
                | inr conversation => chained (resp_id conversation) evs'
                | inl _ => evs' = []
                end
       end
    /\ (forall out, res = inr out ->
         exists last, last_created evs = Some last
                      /\ out = (resp_id last, resp_output_text last))
    /\ (forall req e, EvCreate req (inl e) ∈ evs ->
         res = inl e /\ last evs = Some (EvCreate req (inl e))).
Proof.
  destruct previous_response_id as [previous|].
  - intros Hsend.
    change (continue_message self user_message previous functions
              max_function_rounds st = (res, st')) in Hsend.
    apply continue_message_invariant in Hsend
      as (evs & Ht & Hn & Hchain & Hlast & Hfail & _).
    exists evs. repeat split; try done.
    + by eapply Hfail.
    + by eapply chained_failure_last.
  - unfold send_message, _create_conversation.
    unfold bind at 1 2, create at 1.
    destruct (responses_create (bootstrap_request self) (world st))
      as [[e|conversation] w1].
    { intros [= <- <-]. eexists [_]. cbn [trace]. repeat split.
      - rewrite submissions_create. lia.
      - by eexists _, [].
      - done.
      - apply list_elem_of_singleton in H. by injection H as -> ->.
      - apply list_elem_of_singleton in H. by rewrite H. }
    unfold ret at 1. intros Hsend.
    change (continue_message self user_message (resp_id conversation) functions
              max_function_rounds
              (State w1 (trace st ++ [EvCreate (bootstrap_request self)
                                        (inr conversation)]))
            = (res, st')) in Hsend.
    apply continue_message_invariant in Hsend
      as (evs & Ht & Hn & Hchain & Hlast & Hfail & _).
    cbn [trace] in Ht. eexists (_ :: evs). rewrite Ht, <- app_assoc.
    repeat split.
    + change (EvCreate ?req ?r :: evs) with ([EvCreate req r] ++ evs).
      rewrite submissions_app, submissions_create. lia.
    + by eexists _, evs.
    + intros out Hout. destruct (Hlast out Hout) as (last & Hcreated & ->).
      exists last. cbn [last_created]. by rewrite Hcreated.
    + apply elem_of_cons in H as [H|H]; [done|]. by eapply Hfail.
    + apply elem_of_cons in H as [H|H]; [done|].
      rewrite <- (chained_failure_last _ _ _ _ Hchain H).
      destruct evs; [by apply elem_of_nil in H|done].
Qed.

(** X10: with a previous response id [send_message] bootstraps nothing:
    it first submits the user message against that id, with the schemas
    of the functions as tools; and when the schemas cannot be derived it
    raises before anything happens. *)
Theorem send_message_continues (self : MinCore) (user_message previous : string)
    (functions : list (callable W)) (max_function_rounds : Z) st res st' :
  send_message self user_message (Some previous) functions
    max_function_rounds st = (res, st') ->
  match prepare_functions get_function_schema functions with
  | inl e => res = inl e /\ st' = st
  | inr prepared =>
      exists r w1 rest,
        responses_create
          (user_request self user_message previous (fst prepared)) (world st)
        = (r, w1)
        /\ trace st'
           = trace st
             ++ EvCreate (user_request self user_message previous (fst prepared))
                  r :: rest
  end.
Proof.
  intros Hsend.
  change (continue_message self user_message previous functions
            max_function_rounds st = (res, st')) in Hsend.
  apply continue_message_invariant in Hsend as (evs & Ht & _ & _ & _ & _ & Hfirst).
  destruct (prepare_functions get_function_schema functions) as [e|prepared];
    [done|].
  destruct Hfirst as (r & w1 & rest & Hcreate & ->). by exists r, w1, rest.
Qed.

(** X11: one call of [send_message] submits to the provider at most once
    for the user message, once more when it has to bootstrap, and once for
    each round of the limit. *)
Theorem send_message_submissions (self : MinCore) (user_message : string)
    (previous_response_id : option string) (functions : list (callable W))
    (max_function_rounds : Z) st res st' :
  send_message self user_message previous_response_id functions
    max_function_rounds st = (res, st') ->
  exists evs,
    trace st' = trace st ++ evs
    /\ (Z.of_nat (submissions evs)
        <= (if previous_response_id is None then 2 else 1)
           + Z.max 0 max_function_rounds)%Z.
Proof.
  intros Hsend.
  apply send_message_invariant in Hsend as (evs & Ht & Hn & _).
  exists evs. split; [done|]. destruct previous_response_id; lia.
Qed.

(** X12: the submissions of one [send_message] are one conversation: the
    user message continues the previous response, or the response to the
    bootstrap, and every later submission continues the response before
    it; what [send_message] returns is the id and the text of the last
    response of that conversation. *)
Theorem send_message_conversation (self : MinCore) (user_message : string)
    (previous_response_id : option string) (functions : list (callable W))
    (max_function_rounds : Z) st res st' :
  send_message self user_message previous_response_id functions
    max_function_rounds st = (res, st') ->
  exists evs,
    trace st' = trace st ++ evs
    /\ match previous_response_id with
       | Some previous => chained previous evs
       | None =>
           exists r evs',
             evs = EvCreate (bootstrap_request self) r :: evs'
             /\ match r with
                | inr conversation => chained (resp_id conversation) evs'
                | inl _ => evs' = []
                end
       end
    /\ (forall out, res = inr out ->
         exists last, last_created evs = Some last
                      /\ out = (resp_id last, resp_output_text last)).
Proof.
  intros Hsend.
  apply send_message_invariant in Hsend as (evs & Ht & _ & Hchain & Hlast & _).
  by exists evs.
Qed.

(** X13: when a submission to the provider fails, that is the last thing
    [send_message] does, and it raises the exception of the provider. *)
Theorem provider_error_propagates (self : MinCore) (user_message : string)
    (previous_response_id : option string) (functions : list (callable W))
    (max_function_rounds : Z) st res st' :
  send_message self user_message previous_response_id functions
    max_function_rounds st = (res, st') ->
  exists evs,
    trace st' = trace st ++ evs
    /\ forall req e, EvCreate req (inl e) ∈ evs ->
         res = inl e /\ last evs = Some (EvCreate req (inl e)).
Proof.
  intros Hsend.
  apply send_message_invariant in Hsend as (evs & Ht & _ & _ & _ & Hfail).
  by exists evs.
Qed.

End LoopTheory.

(** ** The example agent *)

Lemma all_created_not_failed (evs : list event) (A : Type) (res : pyresult A) (a : A) :
  (forall req e, EvCreate req (inl e) ∈ evs -> res = inl e) ->
  res = inr a ->
  all_created evs.
Proof.
  intros Hfail ->. apply Forall_forall. intros [req [e|r]|] Hin; [|done|done].
  by apply Hfail in Hin.
Qed.

Lemma chained_app (previous : string) (evs evs' : list event) :
  chained previous evs ->
  all_created evs ->
  chained (default previous (resp_id <$> last_created evs)) evs' ->
  chained previous (evs ++ evs').
Proof.
  revert previous. induction evs as [|[req [e|r]|] evs IH]; intros previous; cbn.
  - done.
  - by intros _ [[] _]%Forall_cons.
  - intros [Hprev Hchain] [_ Hok]%Forall_cons Hnext. split; [done|].
    apply IH; [done|done|]. by destruct (last_created evs).
  - intros Hchain [_ Hok]%Forall_cons Hnext. by apply IH.
Qed.

Section BazTheory.

Context {W : Type}.
Variable json_loads : string -> option pyval.
Variable py_repr : pyval -> string.
Variable json_dumps : pyval -> pyresult string.
Variable get_function_schema : callable W -> pyresult pydict.
Variable responses_create : request -> W -> pyresult provider_response * W.
Variable randbelow : nat -> W -> nat * W.
Variable console_input : string -> W -> pyresult string * W.
Variable console_print : string -> W -> W.
Variable load_dotenv : string -> W -> W.
Variable getenv : string -> W -> option string.

Local Abbreviation get_color := (get_color randbelow).
Local Abbreviation get_number := (get_number randbelow).
Local Abbreviation execute_call := (execute_call py_repr json_dumps).
Local Abbreviation interaction :=
  (interaction json_loads py_repr json_dumps get_function_schema
     responses_create console_input console_print).
Local Abbreviation agent_loop :=
  (agent_loop json_loads py_repr json_dumps get_function_schema
     responses_create randbelow console_input console_print load_dotenv getenv).

Implicit Types (st : state W).

(** What is assumed of the random source: it draws below its bound. *)
Hypothesis randbelow_lt :
  forall (n : nat) (w : W), 0 < n -> fst (randbelow n w) < n.

Lemma funcs_get_color :
  _generate_function_map [get_color; get_number] !! "get_color" = Some get_color.
Proof.
  unfold _generate_function_map. cbn [foldl fn_name get_color get_number].
  by rewrite lookup_insert_ne, lookup_insert_eq.
Qed.

Lemma funcs_get_number :
  _generate_function_map [get_color; get_number] !! "get_number"
  = Some get_number.
Proof.
  unfold _generate_function_map. cbn [foldl fn_name get_color get_number].
  by rewrite lookup_insert_eq.
Qed.

(** X14: a call of [get_color] without arguments comes back from the
    registry of the agent with one of the nine colours as its output, the
    bare name and not its JSON, after one draw from the random source. *)
Theorem color_call_output (call : pending_call) st :
  call_name call = "get_color" ->
  call_args call = PDict [] ->
  exists c,
    c ∈ colors
    /\ execute_call (Some (_generate_function_map [get_color; get_number])) call st
       = (inr {| res_call_id := call_ident call; res_output := c |},
          State (snd (randbelow 9 (world st)))
            (trace st ++ [EvInvoke "get_color" [] (inr (PStr c))])).
Proof.
  intros Hname Hargs.
  pose proof (randbelow_lt 9 (world st) ltac:(lia)) as Hlt.
  destruct (randbelow 9 (world st)) as [i w'] eqn:Hdraw. cbn [fst snd] in *.
  destruct (colors !! i) as [c|] eqn:Hc;
    [|apply lookup_ge_None in Hc; cbn in Hc; lia].
  exists c. split; [by eapply list_elem_of_lookup_2|].
  unfold execute_call, bind at 1, try_except, call_function.
  rewrite Hname, funcs_get_color, Hargs. cbn [unpack_kwargs kwargs_of].
  unfold bind at 1, lift at 1, invoke.
  cbn [fn_call fn_name get_color without_parameters random_choice colors length].
  rewrite Hdraw. fold colors. by rewrite Hc.
Qed.

(** X15: a call of [get_number] without arguments comes back with the
    [str] of an integer from 0 to 100, both included. *)
Theorem number_call_output (call : pending_call) st :
  call_name call = "get_number" ->
  call_args call = PDict [] ->
  exists z,
    (0 <= z <= 100)%Z
    /\ execute_call (Some (_generate_function_map [get_color; get_number])) call st
       = (inr {| res_call_id := call_ident call;
                 res_output := py_repr (PInt z) |},
          State (snd (randbelow 101 (world st)))
            (trace st ++ [EvInvoke "get_number" [] (inr (PInt z))])).
Proof.
  intros Hname Hargs.
  pose proof (randbelow_lt 101 (world st) ltac:(lia)) as Hlt.
  destruct (randbelow 101 (world st)) as [i w'] eqn:Hdraw. cbn [fst snd] in *.
  exists (Z.of_nat i). split; [lia|].
  unfold execute_call, bind at 1, try_except, call_function.
  rewrite Hname, funcs_get_number, Hargs. cbn [unpack_kwargs kwargs_of].
  unfold bind at 1, lift at 1, invoke.
  cbn [fn_call fn_name get_number without_parameters].
  unfold random_randint.
  change (100 <? 0)%Z with false. change (Z.to_nat (100 + 1 - 0)) with 101.
  cbv iota. by rewrite Hdraw.
Qed.

(** The trace of the rounds of the agent. *)
Lemma interaction_invariant (llm : MinCore) (funcs : list (callable W))
    (turns : nat) (response_id : option string) st res st' :
  interaction llm funcs turns response_id st = (res, st') ->
  exists evs,
    trace st' = trace st ++ evs
    /\ submissions evs
       <= 6 * turns + (if response_id is None then 1 else 0)
    /\ match response_id with
       | Some previous => chained previous evs
       | None =>
           evs = []
           \/ exists r evs',
                evs = EvCreate (bootstrap_request llm) r :: evs'
                /\ match r with
                   | inr conversation => chained (resp_id conversation) evs'
                   | inl _ => evs' = []
                   end
       end.
Proof.
  revert response_id st. induction turns as [|turns IH]; intros response_id st.
  { intros [= <- <-]. exists []. rewrite app_nil_r.
    repeat split; [cbn; lia|]. destruct response_id; [done|by left]. }
  cbn [interaction]. unfold bind at 1, py_input at 1.
  destruct (console_input _ (world st)) as [[e|user_input] w1].
  { intros [= <- <-]. exists []. cbn [trace]. rewrite app_nil_r.
    repeat split; [cbn; lia|]. destruct response_id; [done|by left]. }
  unfold bind at 1, py_print at 1. cbn [world trace].
  unfold bind at 1.
  destruct (send_message _ _ _ _ _ _ _ _ _ _ _) as [[e|reply] st2] eqn:Hsend;
    apply send_message_invariant in Hsend
      as (evs1 & Ht1 & Hn1 & Hchain1 & Hlast1 & Hfail1);
    cbn [trace] in Ht1; change (Z.to_nat 5) with 5 in Hn1.
  { intros [= <- <-]. exists evs1. repeat split; [done| |].
    - destruct response_id; lia.
    - destruct response_id; [done|by right]. }
  unfold bind at 1, py_print at 1. cbn [world trace].
  intros Hrest. apply IH in Hrest as (evs2 & Ht2 & Hn2 & Hchain2).
  cbn [trace] in Ht2.
  destruct (Hlast1 reply eq_refl) as (last & Hcreated & ->). cbn [fst] in Hchain2.
  assert (Hok : all_created evs1).
  { apply Forall_forall. intros [req [e|r]|] Hin; [|done|done].
    by destruct (Hfail1 _ _ Hin). }
  exists (evs1 ++ evs2). rewrite Ht2, Ht1, <- app_assoc, submissions_app.
  repeat split; [destruct response_id; lia|].
  destruct response_id as [previous|].
  - apply chained_app; [done|done|]. by rewrite Hcreated.
  - right. destruct Hchain1 as (r & evs1' & -> & Hchain1).
    exists r, (evs1' ++ evs2). split; [done|].
    apply Forall_cons in Hok as [Hr Hok]. destruct r as [e|conversation]; [done|].
    apply chained_app; [done|done|].
    cbn [last_created] in Hcreated. injection Hcreated as <-.
    by destruct (last_created evs1').
Qed.

(** X16: a session of the agent is one conversation: it bootstraps at
    most once, with the system prompt of Baz as the first submission, and
    every later submission, also in a later turn, continues the response
    before it; a turn submits at most six times; and without an API key in
    the environment nothing is submitted and a [ValueError] is raised. *)
Theorem agent_session (turns : nat) st res st' :
  agent_loop turns st = (res, st') ->
  exists evs,
    trace st' = trace st ++ evs
    /\ submissions evs <= 6 * turns + 1
    /\ (evs = []
        \/ exists r evs',
             evs = EvCreate {| req_model := "gpt-5-nano";
                               req_previous_response_id := NotGiven;
                               req_input := [InMessage "system" SYSTEM_PROMPT];
                               req_tools := NotGiven |} r :: evs'
             /\ match r with
                | inr conversation => chained (resp_id conversation) evs'
                | inl _ => evs' = []
                end)
    /\ (match getenv "BAZ_OPENAI_API_KEY" (load_dotenv ".env" (world st)) with
        | None | Some "" =>
            evs = []
            /\ res = inl (PyException "ValueError"
                            "BAZ_OPENAI_API_KEY not found in environment variables")
        | Some _ => True
        end).
Proof.
  unfold agent_loop. cbn [world trace].
  destruct (getenv _ _) as [[|c key]|].
  - intros [= <- <-]. exists []. cbn [trace]. rewrite app_nil_r.
    repeat split; [cbn; lia|by left].
  - intros Hrun. apply interaction_invariant in Hrun as (evs & Ht & Hn & Hchain).
    cbn [trace] in Ht. by exists evs.
  - intros [= <- <-]. exists []. cbn [trace]. rewrite app_nil_r.
    repeat split; [cbn; lia|by left].
Qed.

Hypothesis json_error_roundtrip :
  forall msg : string,
    exists out, json_dumps (error_obj msg) = inr out
                /\ json_loads out = Some (error_obj msg).

Lemma without_parameters_rejects (fmap : gmap string (callable W))
    (call : pending_call) (body : W -> pyresult pyval * W) (k : string)
    (v : pyval) (kwargs : list (string * pyval)) (out : string) st :
  let msg := call_name call +:+ "() got an unexpected keyword argument '"
             +:+ k +:+ "'" in
  fmap !! call_name call
  = Some (Callable (call_name call)
            (fun kw => without_parameters (call_name call) kw body)) ->
  unpack_kwargs (call_args call) = inr ((k, v) :: kwargs) ->
  json_dumps (error_obj msg) = inr out ->
  execute_call (Some fmap) call st
  = (inr {| res_call_id := call_ident call; res_output := out |},
     State (world st)
       (trace st ++ [EvInvoke (call_name call) ((k, v) :: kwargs)
                       (inl (PyException "TypeError" msg))])).
Proof.
  intros msg Hlookup Hkwargs Hdumps.
  unfold execute_call, bind at 1, try_except, call_function.
  rewrite Hlookup, Hkwargs. unfold bind at 1, lift at 1, invoke.
  cbn [fn_call fn_name without_parameters world trace]. fold msg.
  unfold ret at 1, bind, lift. cbn [exn_str error_obj]. fold (error_obj msg).
  by rewrite Hdumps.
Qed.

(** X17: the two tools of the agent take no parameter: a call of one of
    them with a keyword argument draws nothing from the random source and
    comes back as an error object, the [TypeError] of the call. *)
Theorem baz_tools_reject_arguments (call : pending_call) (k : string)
    (v : pyval) (kwargs : list (string * pyval)) st :
  call_name call = "get_color" \/ call_name call = "get_number" ->
  unpack_kwargs (call_args call) = inr ((k, v) :: kwargs) ->
  exists msg out,
    json_loads out = Some (error_obj msg)
    /\ execute_call (Some (_generate_function_map [get_color; get_number])) call st
       = (inr {| res_call_id := call_ident call; res_output := out |},
          State (world st)
            (trace st ++ [EvInvoke (call_name call) ((k, v) :: kwargs)
                            (inl (PyException "TypeError" msg))])).
Proof.
  intros Hname Hkwargs.
  destruct (json_error_roundtrip
              (call_name call +:+ "() got an unexpected keyword argument '"
               +:+ k +:+ "'")) as (out & Hdumps & Hloads).
  eexists _, out. split; [exact Hloads|].
  destruct Hname as [Hname|Hname].
  - eapply without_parameters_rejects; [|exact Hkwargs|exact Hdumps].
    rewrite Hname. exact funcs_get_color.
  - eapply without_parameters_rejects; [|exact Hkwargs|exact Hdumps].
    rewrite Hname. exact funcs_get_number.
Qed.

End BazTheory.

(** ** From an item to the invocation *)

Section ItemTheory.

Context {W : Type}.
Variable json_loads : string -> option pyval.
Variable py_repr : pyval -> string.
Variable json_dumps : pyval -> pyresult string.

(** X18: when the arguments of a qualifying item are a string that is not
    JSON, the call is not dropped: its function, when registered, is
    invoked without any argument. *)
Theorem unparsable_arguments_dropped (item : pyval) (s : string)
    (fmap : gmap string (callable W)) (function : callable W) (st : state W) :
  qualifies item = true ->
  getattr item "arguments" PNone = PStr s ->
  json_loads s = None ->
  fmap !! py_str py_repr (getattr item "name" PNone) = Some function ->
  exists call res,
    extract_item json_loads py_repr [] item = [call]
    /\ call_args call = PDict []
    /\ execute_call py_repr json_dumps (Some fmap) call st
       = (res,
          State (snd (fn_call function [] (world st)))
            (trace st
             ++ [EvInvoke (fn_name function) []
                   (fst (fn_call function [] (world st)))])).
Proof.
  intros Hq Hargs Hparse Hlookup.
  rewrite extract_item_step, Hq. cbn [app].
  set (call := pending_of json_loads py_repr item).
  assert (Hcall_args : call_args call = PDict []).
  { unfold call. cbn [call_args pending_of]. rewrite Hargs. cbn [spec_args].
    by rewrite Hparse. }
  exists call, (fst (execute_call py_repr json_dumps (Some fmap) call st)).
  repeat split; [done|].
  rewrite (surjective_pairing (execute_call _ _ _ _ _)) at 1. f_equal.
  unfold execute_call, bind at 1, try_except, call_function.
  rewrite Hcall_args. change (call_name call)
    with (py_str py_repr (getattr item "name" PNone)). rewrite Hlookup.
  cbn [unpack_kwargs kwargs_of]. unfold bind at 1, lift at 1, invoke.
  destruct (fn_call function [] (world st)) as [[[cls msg|cls msg]|v] w'];
    cbn [fst snd]; unfold bind, lift, ret; cbn [exn_str].
  - match goal with |- context [json_dumps ?x] => by destruct (json_dumps x) end.
  - reflexivity.
  - by destruct (match v with PDict _ | PList _ => _ | _ => _ end).
Qed.

End ItemTheory.

(** ** The further properties on sample runs *)

Lemma sample_randbelow_lt (n w : nat) :
  0 < n -> fst (BazSamples.randbelow n w) < n.
Proof. intros Hn. cbn. apply Nat.mod_upper_bound. lia. Qed.

Lemma function_map_complete_witness :
  _generate_function_map [Samples.get_color; Samples.get_number]
  !! fn_name Samples.get_number
  = Some Samples.get_number.
Proof.
  apply (function_map_complete [Samples.get_color; Samples.get_number]
           Samples.get_number).
  - cbn. apply NoDup_cons. split; [|apply NoDup_singleton].
    intros Hin%list_elem_of_singleton. discriminate Hin.
  - right. left.
Defined.

Lemma schemas_typed_witness :
  exists schemas,
    _generate_function_schemas Samples.schemas
      [Samples.get_color; Samples.get_number] = inr schemas
    /\ Forall2 (fun function schema =>
                  exists d,
                    Samples.schemas function = inr d
                    /\ forall k,
                         dict_get k schema
                         = if String.eqb k "type" then Some (PStr "function")
                           else dict_get k d)
         [Samples.get_color; Samples.get_number] schemas.
Proof.
  eexists. split; [vm_compute; reflexivity|].
  apply (schemas_typed Samples.schemas [Samples.get_color; Samples.get_number]).
  vm_compute. reflexivity.
Defined.

Lemma loop_follows_up_witness :
  let run :=
    function_calling_loop MiniJson.loads Samples.repr MiniJson.dumps
      Samples.insistent Samples.baz (Some Samples.registry) 2 Samples.asking
      Samples.initial in
  exists evs,
    trace (snd run) = trace Samples.initial ++ evs
    /\ follows_up (_extract_function_calls MiniJson.loads Samples.repr)
         Samples.baz Samples.asking evs.
Proof.
  intros run.
  apply (loop_follows_up MiniJson.loads Samples.repr MiniJson.dumps
           Samples.insistent Samples.baz (Some Samples.registry) 2
           Samples.asking Samples.initial (fst run) (snd run)).
  vm_compute. reflexivity.
Defined.

Lemma dispatch_zero_rounds_witness :
  dispatch MiniJson.loads Samples.repr MiniJson.dumps Samples.insistent
    Samples.baz (Some Samples.registry) 0 Samples.asking Samples.initial
  = (inr (resp_id Samples.asking, resp_output_text Samples.asking),
     Samples.initial).
Proof.
  apply (dispatch_zero_rounds MiniJson.loads Samples.repr MiniJson.dumps
           Samples.insistent Samples.baz (Some Samples.registry) 0
           Samples.asking Samples.initial).
  lia.
Defined.

Lemma send_message_continues_witness :
  let run :=
    send_message MiniJson.loads Samples.repr MiniJson.dumps Samples.schemas
      Samples.insistent Samples.baz "hello" (Some "resp_prev")
      [Samples.get_color; Samples.get_number] 2 Samples.initial in
  match prepare_functions Samples.schemas [Samples.get_color; Samples.get_number] with
  | inl e => fst run = inl e /\ snd run = Samples.initial
  | inr prepared =>
      exists r w1 rest,
        Samples.insistent
          (user_request Samples.baz "hello" "resp_prev" (fst prepared))
          (world Samples.initial)
        = (r, w1)
        /\ trace (snd run)
           = trace Samples.initial
             ++ EvCreate (user_request Samples.baz "hello" "resp_prev" (fst prepared))
                  r :: rest
  end.
Proof.
  intros run.
  apply (send_message_continues MiniJson.loads Samples.repr MiniJson.dumps
           Samples.schemas Samples.insistent Samples.baz "hello" "resp_prev"
           [Samples.get_color; Samples.get_number] 2 Samples.initial
           (fst run) (snd run)).
  vm_compute. reflexivity.
Defined.

Lemma send_message_submissions_witness :
  let run :=
    send_message MiniJson.loads Samples.repr MiniJson.dumps Samples.schemas
      Samples.insistent Samples.baz "hello" None
      [Samples.get_color; Samples.get_number] 2 Samples.initial in
  exists evs,
    trace (snd run) = trace Samples.initial ++ evs
    /\ (Z.of_nat (submissions evs) <= 2 + Z.max 0 2)%Z.
Proof.
  intros run.
  apply (send_message_submissions MiniJson.loads Samples.repr MiniJson.dumps
           Samples.schemas Samples.insistent Samples.baz "hello" None
           [Samples.get_color; Samples.get_number] 2 Samples.initial
           (fst run) (snd run)).
  vm_compute. reflexivity.
Defined.

Lemma send_message_conversation_witness :
  let run :=
    send_message MiniJson.loads Samples.repr MiniJson.dumps Samples.schemas
      Samples.insistent Samples.baz "hello" (Some "resp_prev")
      [Samples.get_color; Samples.get_number] 2 Samples.initial in
  exists evs,
    trace (snd run) = trace Samples.initial ++ evs
    /\ chained "resp_prev" evs
    /\ (forall out, fst run = inr out ->
        exists last, last_created evs = Some last
                     /\ out = (resp_id last, resp_output_text last)).
Proof.
  intros run.
  apply (send_message_conversation MiniJson.loads Samples.repr MiniJson.dumps
           Samples.schemas Samples.insistent Samples.baz "hello"
           (Some "resp_prev") [Samples.get_color; Samples.get_number] 2
           Samples.initial (fst run) (snd run)).
  vm_compute. reflexivity.
Defined.

Lemma provider_error_propagates_witness :
  let failing_provider :=
    fun (req : request) (w : nat) =>
      (inl (PyException "APIConnectionError" "Connection error.")
         : pyresult provider_response, w) in
  let run :=
    send_message MiniJson.loads Samples.repr MiniJson.dumps Samples.schemas
      failing_provider Samples.baz "hello" None [] 5 Samples.initial in
  exists evs,
    trace (snd run) = trace Samples.initial ++ evs
    /\ forall req e, EvCreate req (inl e) ∈ evs ->
         fst run = inl e /\ last evs = Some (EvCreate req (inl e)).
Proof.
  intros failing_provider run.
  apply (provider_error_propagates MiniJson.loads Samples.repr MiniJson.dumps
           Samples.schemas failing_provider Samples.baz "hello" None [] 5
           Samples.initial (fst run) (snd run)).
  vm_compute. reflexivity.
Defined.

Lemma color_call_output_witness :
  exists c,
    c ∈ colors
    /\ execute_call Samples.repr MiniJson.dumps
         (Some (_generate_function_map
                  [get_color BazSamples.randbelow; get_number BazSamples.randbelow]))
         {| call_ident := "call_1"; call_name := "get_color"; call_args := PDict [] |}
         (State 4 [])
       = (inr {| res_call_id := "call_1"; res_output := c |},
          State (snd (BazSamples.randbelow 9 4))
            ([] ++ [EvInvoke "get_color" [] (inr (PStr c))])).
Proof.
  apply (color_call_output Samples.repr MiniJson.dumps BazSamples.randbelow
           sample_randbelow_lt
           {| call_ident := "call_1"; call_name := "get_color"; call_args := PDict [] |}
           (State 4 []));
    reflexivity.
Defined.

Lemma number_call_output_witness :
  exists z,
    (0 <= z <= 100)%Z
    /\ execute_call Samples.repr MiniJson.dumps
         (Some (_generate_function_map
                  [get_color BazSamples.randbelow; get_number BazSamples.randbelow]))
         {| call_ident := "call_2"; call_name := "get_number"; call_args := PDict [] |}
         (State 250 [])
       = (inr {| res_call_id := "call_2"; res_output := Samples.repr (PInt z) |},
          State (snd (BazSamples.randbelow 101 250))
            ([] ++ [EvInvoke "get_number" [] (inr (PInt z))])).
Proof.
  apply (number_call_output Samples.repr MiniJson.dumps BazSamples.randbelow
           sample_randbelow_lt
           {| call_ident := "call_2"; call_name := "get_number"; call_args := PDict [] |}
           (State 250 []));
    reflexivity.
Defined.

Lemma baz_tools_reject_arguments_witness :
  exists msg out,
    MiniJson.loads out = Some (error_obj msg)
    /\ execute_call Samples.repr MiniJson.dumps
         (Some (_generate_function_map
                  [get_color BazSamples.randbelow; get_number BazSamples.randbelow]))
         {| call_ident := "call_1"; call_name := "get_color";
            call_args := PDict [(PStr "shade", PStr "dark")] |}
         (State 4 [])
       = (inr {| res_call_id := "call_1"; res_output := out |},
          State 4
            ([] ++ [EvInvoke "get_color" [("shade", PStr "dark")]
                      (inl (PyException "TypeError" msg))])).
Proof.
  apply (baz_tools_reject_arguments MiniJson.loads Samples.repr MiniJson.dumps
           BazSamples.randbelow mini_json_error_roundtrip
           {| call_ident := "call_1"; call_name := "get_color";
              call_args := PDict [(PStr "shade", PStr "dark")] |}
           "shade" (PStr "dark") [] (State 4 []));
    [by left|reflexivity].
Defined.

Lemma agent_session_witness :
  let run :=
    agent_loop MiniJson.loads Samples.repr MiniJson.dumps Samples.schemas
      Samples.insistent BazSamples.randbelow BazSamples.console_input
      BazSamples.console_print BazSamples.load_dotenv BazSamples.getenv 2
      Samples.initial in
  exists evs,
    trace (snd run) = trace Samples.initial ++ evs
    /\ submissions evs <= 6 * 2 + 1
    /\ (evs = []
        \/ exists r evs',
             evs = EvCreate {| req_model := "gpt-5-nano";
                               req_previous_response_id := NotGiven;
                               req_input := [InMessage "system" SYSTEM_PROMPT];
                               req_tools := NotGiven |} r :: evs'
             /\ match r with
                | inr conversation => chained (resp_id conversation) evs'
                | inl _ => evs' = []
                end)
    /\ (match BazSamples.getenv "BAZ_OPENAI_API_KEY"
                (BazSamples.load_dotenv ".env" (world Samples.initial)) with
        | None | Some "" =>
            evs = []
            /\ fst run
               = inl (PyException "ValueError"
                        "BAZ_OPENAI_API_KEY not found in environment variables")
        | Some _ => True
        end).
Proof.
  intros run.
  apply (agent_session MiniJson.loads Samples.repr MiniJson.dumps
           Samples.schemas Samples.insistent BazSamples.randbelow
           BazSamples.console_input BazSamples.console_print
           BazSamples.load_dotenv BazSamples.getenv 2 Samples.initial
           (fst run) (snd run)).
  vm_compute. reflexivity.
Defined.

(** A session of two turns with a provider that always asks for a colour:
    thirteen submissions, one of them the bootstrap. *)
Example agent_two_turns :
  let run :=
    agent_loop MiniJson.loads Samples.repr MiniJson.dumps Samples.schemas
      Samples.insistent BazSamples.randbelow BazSamples.console_input
      BazSamples.console_print BazSamples.load_dotenv BazSamples.getenv 2
      Samples.initial in
  fst run = inr (Some "resp_22")
  /\ submissions (trace (snd run)) = 13
  /\ length (filter (fun ev => is_invoke ev = true) (trace (snd run))) = 10.
Proof. vm_compute. done. Qed.

Lemma unparsable_arguments_dropped_witness :
  exists call res,
    extract_item MiniJson.loads Samples.repr [] BazSamples.garbled_call = [call]
    /\ call_args call = PDict []
    /\ execute_call Samples.repr MiniJson.dumps (Some Samples.registry) call
         (State 41 [])
       = (res,
          State (snd (fn_call Samples.get_number [] (world (State 41 []))))
            (trace (State 41 [])
             ++ [EvInvoke (fn_name Samples.get_number) []
                   (fst (fn_call Samples.get_number [] (world (State 41 []))))])).
Proof.
  apply (unparsable_arguments_dropped MiniJson.loads Samples.repr MiniJson.dumps
           BazSamples.garbled_call "{oops" Samples.registry Samples.get_number
           (State 41 []));
    vm_compute; reflexivity.
Defined.
